(** * RepoRadar: dual-vector merge-rerank search and its web client

    A shallow embedding of the ranking routine [search_similar] (the Python
    of the architecture plan, vector_store.py) and of the TypeScript
    front end (api/client.ts, App.tsx, WeightSliders.tsx, SearchInput.tsx,
    hooks/useTheme.ts), followed by the properties proved about them.

    Numbers are IEEE 754 binary64 values on both sides (Python [float],
    JavaScript [number]); they are modelled by Rocq's primitive floats, so
    every rounding of the source is present in the model.  Strings of the
    JavaScript side are sequences of UTF-16 code units. *)

From Stdlib Require Import ZArith Floats Lia Sorted Permutation.
From stdpp Require Import gmap strings list fin_maps sorting.

Set Warnings "-inexact-float,-register-all".

(* ===================================================================== *)
(** * Part I: the embedding                                               *)
(* ===================================================================== *)

(** ** Binary64 numbers *)

Module Float64.

(** The position of a binary64 value on the number line, as an integer:
    strictly monotone on the values that are not NaN, both zeros at 0,
    the infinities beyond every finite value. *)
Definition rank (X : spec_float) : option Z :=
  match X with
  | S754_nan => None
  | S754_zero _ => Some 0%Z
  | S754_infinity s => Some (if s then - 2 ^ 65 else 2 ^ 65)%Z
  | S754_finite s m e =>
      let r := ((e + 1075) * 2 ^ 53 + Zpos m)%Z in
      Some (if s then - r else r)%Z
  end.

Definition ord (x : float) : option Z := rank (Prim2SF x).

(** The mantissa and exponent ranges of binary64. *)
Definition in_range (X : spec_float) : Prop :=
  match X with
  | S754_finite _ m e => (Zpos m < 2 ^ 53 /\ -1074 <= e <= 971)%Z
  | _ => True
  end.

(** A finite mantissa and exponent in canonical form. *)
Definition canonical64 (m : positive) (e : Z) : Prop :=
  Z.max (Z.pos (digits2_pos m) + e - prec) (3 - emax - prec) = e.

End Float64.

(** ** Python runtime pieces used by [search_similar] *)

Module Py.

(** [x >= y] on Python floats: false as soon as one side is a NaN. *)
Definition ge (x y : float) : bool := (y <=? x)%float.

(** A Python [dict] with integer keys: a finite map together with the
    insertion order of its keys, which is the order [items()] iterates in. *)
Record dict (V : Type) : Type := Dict { d_map : gmap Z V; d_keys : list Z }.
Arguments Dict {V} _ _.
Arguments d_map {V} _.
Arguments d_keys {V} _.

Definition empty {V} : dict V := Dict ∅ [].

(** [k in d] *)
Definition contains {V} (k : Z) (d : dict V) : bool :=
  bool_decide (is_Some (d_map d !! k)).

(** [d[k]] when the key is present *)
Definition get {V} (k : Z) (d : dict V) : option V := d_map d !! k.

(** [d[k] = v]: a new key goes to the end of the order, an existing key
    keeps its place. *)
Definition setitem {V} (k : Z) (v : V) (d : dict V) : dict V :=
  Dict (<[k := v]> (d_map d))
       (if contains k d then d_keys d else d_keys d ++ [k]).

(** The representation invariant of a dictionary: the order lists each
    key of the map once. *)
Definition wf {V} (d : dict V) : Prop :=
  NoDup (d_keys d) /\ forall k, k ∈ d_keys d <-> is_Some (d_map d !! k).

(** [d.items()] *)
Definition items {V} (d : dict V) : list (Z * V) :=
  omap (fun k => (fun v => (k, v)) <$> d_map d !! k) (d_keys d).

(** [l[:stop]]: a negative [stop] counts from the end of the list. *)
Definition slice_to {A} (l : list A) (stop : Z) : list A :=
  if (0 <=? stop)%Z then take (Z.to_nat stop) l
  else take (Z.to_nat (Z.of_nat (length l) + stop)) l.

(** [l.sort(key=key, reverse=True)].  The sort is stable and compares keys
    with [<] only; with [reverse=True] the result is descending and elements
    with equal keys keep their original order.  [insert_desc x l] places [x],
    which stood before the elements of [l], into the already sorted [l]. *)
Fixpoint insert_desc {A} (key : A -> float) (x : A) (l : list A) : list A :=
  match l with
  | [] => [x]
  | y :: l' =>
      if (key x <? key y)%float then y :: insert_desc key x l'
      else x :: y :: l'
  end.

Definition sort_reverse {A} (key : A -> float) (l : list A) : list A :=
  foldr (insert_desc key) [] l.

(** [x] may stand before [y] in a list that descends by [key]. *)
Definition desc {A} (key : A -> float) (x y : A) : Prop :=
  (key y <=? key x)%float = true.

End Py.

(** ** vector_store.py: the dual-vector search *)

Module VectorStore.

(** The payload stored with every point of the [repositories] collection. *)
Record Payload : Type := {
  full_name : string;
  description : string;
  url : string;
  topics : list string;
  language_primary : string;
  stars : Z;
  last_updated : string;
  indexed_at : string
}.

(** One hit of [client.search]: [r.id], [r.score], [r.payload]. *)
Record ScoredPoint : Type := { r_id : Z; r_score : float; r_payload : Payload }.

(** The value kept per candidate in [scores]:
    [{"purpose": .., "stack": .., "payload": ..}]. *)
Record Scores : Type := { purpose : float; stack : float; payload : Payload }.

(** [SearchResult(id=.., score=.., payload=..)] *)
Record SearchResult : Type := { sr_id : Z; sr_score : float; sr_payload : Payload }.

(** [final = w_purpose * data["purpose"] + w_stack * data["stack"]] *)
Definition final_score (w_purpose w_stack : float) (data : Scores) : float :=
  (w_purpose * purpose data + w_stack * stack data)%float.

(** First loop: [scores[r.id] = {"purpose": r.score, "stack": 0.0, ...}] *)
Definition merge_purpose (scores : Py.dict Scores) (r : ScoredPoint) : Py.dict Scores :=
  Py.setitem (r_id r)
    {| purpose := r_score r; stack := 0; payload := r_payload r |} scores.

(** Second loop: a known id gets its stack score, a new id a fresh entry
    with purpose score [0.0]. *)
Definition merge_stack (scores : Py.dict Scores) (r : ScoredPoint) : Py.dict Scores :=
  match Py.get (r_id r) scores with
  | Some data =>
      Py.setitem (r_id r)
        {| purpose := purpose data; stack := r_score r; payload := payload data |}
        scores
  | None =>
      Py.setitem (r_id r)
        {| purpose := 0; stack := r_score r; payload := r_payload r |} scores
  end.

Definition merge (purpose_results stack_results : list ScoredPoint) : Py.dict Scores :=
  foldl merge_stack (foldl merge_purpose Py.empty purpose_results) stack_results.

(** The two halves of the third loop's body: the test a merged item has
    to pass, and the result it then becomes. *)
Definition passes (w_purpose w_stack min_score : float) (it : Z * Scores) : bool :=
  Py.ge (final_score w_purpose w_stack it.2) min_score.

Definition to_result (w_purpose w_stack : float) (it : Z * Scores) : SearchResult :=
  {| sr_id := it.1; sr_score := final_score w_purpose w_stack it.2;
     sr_payload := payload it.2 |}.

(** Third loop: the weighted score and the [min_score] filter. *)
Definition rank_one (w_purpose w_stack min_score : float)
    (it : Z * Scores) : option SearchResult :=
  let final := final_score w_purpose w_stack it.2 in
  if Py.ge final min_score
  then Some {| sr_id := it.1; sr_score := final; sr_payload := payload it.2 |}
  else None.

Definition rank (w_purpose w_stack min_score : float)
    (scores : Py.dict Scores) : list SearchResult :=
  omap (rank_one w_purpose w_stack min_score) (Py.items scores).

Section search.

(** [self.client.search(collection_name, query_vector=(name, vec), limit)],
    the vector store's single-space nearest-neighbour query. *)
Variable client_search : string -> string * list float -> Z -> list ScoredPoint.

Definition purpose_results (purpose_vec : list float) (limit : Z) : list ScoredPoint :=
  client_search "repositories" ("purpose", purpose_vec) (limit * 3)%Z.

Definition stack_results (stack_vec : list float) (limit : Z) : list ScoredPoint :=
  client_search "repositories" ("stack", stack_vec) (limit * 3)%Z.

(** The candidate map [scores] after both merge loops. *)
Definition merged (purpose_vec stack_vec : list float) (limit : Z) : Py.dict Scores :=
  merge (purpose_results purpose_vec limit) (stack_results stack_vec limit).

(** [search_similar], with the parameters of the signature declared on
    [VectorStore] ([limit] defaults to 20 and [min_score] to 0.3 there). *)
Definition search_similar (purpose_vec stack_vec : list float)
    (w_purpose w_stack : float) (limit : Z) (min_score : float) : list SearchResult :=
  let scores := merged purpose_vec stack_vec limit in
  let ranked := rank w_purpose w_stack min_score scores in
  Py.slice_to (Py.sort_reverse sr_score ranked) limit.

End search.

End VectorStore.

(** ** The orderings the specification names *)

Module SearchSpec.
Import VectorStore.

(** The order of the specification's sort step: descending score, ties by
    descending star count, then by identifier.  [spec_precedes a b] says
    that [a] may stand directly before [b]. *)
Definition spec_precedes (a b : SearchResult) : Prop :=
  (sr_score b <? sr_score a)%float = true
  \/ ((sr_score a =? sr_score b)%float = true
      /\ ((stars (sr_payload b) < stars (sr_payload a))%Z
          \/ (stars (sr_payload a) = stars (sr_payload b)
              /\ (sr_id a <= sr_id b)%Z))).

(** Ordering candidates by purpose score alone: [ordered] holds the
    candidates [cands], each once; a candidate stands before every candidate
    of a lower or equal purpose score; and the candidates of any one purpose
    score stand in the order they have in [cands]. *)
Definition by_purpose_alone (cands ordered : list (Z * Scores)) : Prop :=
  ordered ≡ₚ cands
  /\ StronglySorted
       (fun a b : Z * Scores => (purpose b.2 <=? purpose a.2)%float = true) ordered
  /\ forall v : float,
       List.filter (fun it : Z * Scores => (purpose it.2 =? v)%float) ordered
       = List.filter (fun it : Z * Scores => (purpose it.2 =? v)%float) cands.

End SearchSpec.

(** ** Small stores used to run the search on *)

Module Fixtures.
Import VectorStore.

Definition repo (name : string) (n_stars : Z) : Payload :=
  {| full_name := name; description := EmptyString; url := EmptyString;
     topics := []; language_primary := "Python"; stars := n_stars;
     last_updated := EmptyString; indexed_at := EmptyString |}.

Definition hit (i : Z) (s : float) (p : Payload) : ScoredPoint :=
  {| r_id := i; r_score := s; r_payload := p |}.

(** A store that answers each vector space with a fixed list of hits. *)
Definition store (purpose_hits stack_hits : list ScoredPoint)
    (collection : string) (query_vector : string * list float) (limit : Z)
    : list ScoredPoint :=
  if String.eqb query_vector.1 "purpose" then purpose_hits else stack_hits.

(** Candidate 1 only in the purpose hits, 3 only in the stack hits, 2 in
    both. *)
Definition two_spaces :=
  store [hit 1 0.9 (repo "a/one" 10); hit 2 0.8 (repo "b/two" 20)]
        [hit 2 0.5 (repo "b/two" 20); hit 3 0.7 (repo "c/three" 30)].

(** A store that answers the purpose query out of score order; candidate 3
    is a hit of the stack query only. *)
Definition unordered :=
  store [hit 1 0.2 (repo "a/one" 10); hit 2 0.9 (repo "b/two" 20)]
        [hit 3 0.7 (repo "c/three" 30)].

(** Two candidates of equal score; the one with fewer stars (and the
    higher identifier) is returned first by the store. *)
Definition tied :=
  store [hit 2 0.5 (repo "few/stars" 10); hit 1 0.5 (repo "many/stars" 500)] [].

(** The store holds the query repository itself (identifier 42), which is
    its own nearest neighbour in both spaces. *)
Definition query_id : Z := 42.
Definition with_query_repo :=
  store [hit query_id 1 (repo "owner/repo" 5); hit 8 0.6 (repo "x/other" 7)]
        [hit query_id 1 (repo "owner/repo" 5)].

(** The scenario of the specification: purpose 0.9, stack 0.2. *)
Definition scenario :=
  store [hit 7 0.9 (repo "s/cenario" 1)] [hit 7 0.2 (repo "s/cenario" 1)].

End Fixtures.

(** ** JavaScript runtime pieces used by the front end *)

Module Js.

(** A JavaScript string is a sequence of UTF-16 code units. *)
Definition jsstring : Type := list N.

(** The code units of an ASCII literal of the source. *)
Definition lit (s : string) : jsstring :=
  (fun a => N.of_nat (Ascii.nat_of_ascii a)) <$> String.list_ascii_of_string s.
Arguments lit : simpl never.

(** ECMAScript WhiteSpace and LineTerminator code points, the ones
    [String.prototype.trim] removes. *)
Definition is_whitespace (c : N) : bool :=
  ((9 <=? c) && (c <=? 13) || (c =? 32) || (c =? 160) || (c =? 5760)
   || (8192 <=? c) && (c <=? 8202) || (c =? 8232) || (c =? 8233)
   || (c =? 8239) || (c =? 8287) || (c =? 12288) || (c =? 65279))%N.

Fixpoint trimStart (s : jsstring) : jsstring :=
  match s with
  | c :: s' => if is_whitespace c then trimStart s' else s
  | [] => []
  end.

Definition trimEnd (s : jsstring) : jsstring := rev (trimStart (rev s)).

(** [s.trim()] *)
Definition trim (s : jsstring) : jsstring := trimEnd (trimStart s).

(** An integer of magnitude below 2^63 as a number. *)
Definition of_Z (z : Z) : float :=
  match z with
  | Z0 => 0%float
  | Zpos _ => of_uint63 (Uint63.of_Z z)
  | Zneg p => (- of_uint63 (Uint63.of_Z (Zpos p)))%float
  end.

(** [Math.round(x)]: the integer nearest to [x], ties towards +infinity;
    [x] itself when it is integral, infinite or NaN; a zero of the sign of
    [x] for [-0.5 <= x < 0].  The value of a finite float is
    [(-1)^s * m * 2^e], so [floor (x + 1/2)] is computed exactly in [Z]. *)
Definition Math_round (x : float) : float :=
  match Prim2SF x with
  | S754_finite s m e =>
      if (0 <=? e)%Z then x
      else
        let n := (if s then Zneg m else Zpos m) in
        let r := ((2 * n + 2 ^ (- e)) / 2 ^ (1 - e))%Z in
        if (r =? 0)%Z then (if s then (-0)%float else 0%float) else of_Z r
  | _ => x
  end.

(** Values that flow through the client: the results of [JSON.parse],
    plus [undefined] for absent properties. *)
Inductive value : Type :=
| Undefined
| Null
| Bool (b : bool)
| Num (x : float)
| Str (s : jsstring)
| Arr (items : list value)
| Obj (fields : list (jsstring * value)).

(** ToBoolean *)
Definition truthy (v : value) : bool :=
  match v with
  | Undefined | Null => false
  | Bool b => b
  | Num x => negb (is_nan x || is_zero x)
  | Str s => negb (bool_decide (s = []))
  | Arr _ | Obj _ => true
  end.

(** Own-property lookup in an object built by [JSON.parse] or by an object
    literal (the keys of such an object are distinct). *)
Fixpoint lookup_field (k : jsstring) (fields : list (jsstring * value)) : value :=
  match fields with
  | [] => Undefined
  | (k', v) :: rest => if bool_decide (k' = k) then v else lookup_field k rest
  end.

(** [v.k] for a data property [k] that no prototype defines: [None] stands
    for the TypeError raised on [null] and [undefined]. *)
Definition get_prop (v : value) (k : jsstring) : option value :=
  match v with
  | Undefined | Null => None
  | Obj fields => Some (lookup_field k fields)
  | _ => Some Undefined
  end.

(** Whether [k] names an own property of an object with these fields. *)
Definition has_own (k : jsstring) (fields : list (jsstring * value)) : bool :=
  bool_decide (k ∈ fields.*1).

(** [a.join(sep)] over already converted elements. *)
Fixpoint join (sep : jsstring) (parts : list jsstring) : jsstring :=
  match parts with
  | [] => []
  | [p] => p
  | p :: rest => p ++ sep ++ join sep rest
  end.

Section to_string.

(** Number::toString, the shortest round-tripping decimal rendering, is
    part of the language runtime and is taken as given. *)
Variable Number_toString : float -> jsstring.

(** ToString on the values above; [None] stands for the TypeError raised
    when an object cannot be converted to a primitive value.  Arrays go
    through [Array.prototype.join], where [null] and [undefined] elements
    render as the empty string and every other element is converted in
    turn.  A plain object renders as [[object Object]] through
    [Object.prototype.toString]; an own property [toString] hides that
    method and, being data, cannot be called, and [valueOf] then yields no
    primitive either (it is hidden likewise, or returns the object), so the
    conversion throws. *)
Fixpoint ToString (v : value) : option jsstring :=
  match v with
  | Undefined => Some (lit "undefined")
  | Null => Some (lit "null")
  | Bool true => Some (lit "true")
  | Bool false => Some (lit "false")
  | Num x => Some (Number_toString x)
  | Str s => Some s
  | Arr items =>
      join (lit ",") <$>
        (fix elements (l : list value) : option (list jsstring) :=
           match l with
           | [] => Some []
           | e :: l' =>
               match (match e with
                      | Undefined | Null => Some []
                      | _ => ToString e
                      end), elements l' with
               | Some p, Some ps => Some (p :: ps)
               | _, _ => None
               end
           end) items
  | Obj fields =>
      if has_own (lit "toString") fields then None
      else Some (lit "[object Object]")
  end.

End to_string.

(** Whether [v.toLocaleString()] returns (with a string) rather than
    throws.  It throws on [null] and [undefined]; numbers, strings and
    booleans have the method; [Array.prototype.toLocaleString] calls the
    method of every element but [null] and [undefined]; on a plain object
    an own property [toLocaleString] is data and cannot be called, and
    [Object.prototype.toLocaleString] calls [this.toString()], which an
    own property [toString] breaks in the same way. *)
Fixpoint toLocaleString_returns (v : value) : bool :=
  match v with
  | Undefined | Null => false
  | Bool _ | Num _ | Str _ => true
  | Arr items =>
      forallb (fun e => match e with
                        | Undefined | Null => true
                        | _ => toLocaleString_returns e
                        end) items
  | Obj fields =>
      negb (has_own (lit "toLocaleString") fields)
      && negb (has_own (lit "toString") fields)
  end.

(** An [Error] instance, as far as the client reads it. *)
Record Error : Type := { name : jsstring; message : jsstring }.

(** What a [throw] or a rejected promise carries. *)
Inductive thrown : Type :=
| ThrownError (e : Error)      (* [e instanceof Error] *)
| ThrownOther (v : value).

(** The settled state of an awaited promise.  A promise that never settles
    has no outcome: what is said below of a caller's end state is said of
    the calls whose promises settle. *)
Inductive outcome (A : Type) : Type :=
| Resolved (a : A)
| Rejected (e : thrown).
Arguments Resolved {A} _.
Arguments Rejected {A} _.

End Js.

(** ** types/api.ts and api/client.ts *)

Module Client.
Import Js.

(** [interface SearchRequest] *)
Record SearchRequest : Type := {
  repo_url : jsstring;
  weight_purpose : float;
  weight_stack : float;
  limit : float;
  min_stars : float
}.

(** [interface SearchResultItem]; [string | null] fields are options. *)
Record SearchResultItem : Type := {
  full_name : jsstring;
  url : jsstring;
  description : option jsstring;
  topics : list jsstring;
  language_primary : option jsstring;
  stars : float;
  similarity_score : float;
  purpose_score : float;
  stack_score : float
}.

(** The type of [SearchResponse.query_repo]; [description] is optional. *)
Record QueryRepo : Type := {
  qr_full_name : jsstring;
  qr_description : option jsstring
}.

(** [interface SearchResponse] *)
Record SearchResponse : Type := {
  query_repo : QueryRepo;
  results : list SearchResultItem;
  indexed_count : float;
  search_time_ms : float
}.

(** The object literal [handleSearch] passes to [searchRepos], with its
    properties in source order. *)
Definition SearchRequest_value (p : SearchRequest) : value :=
  Obj [ (lit "repo_url", Str (repo_url p));
        (lit "weight_purpose", Num (weight_purpose p));
        (lit "weight_stack", Num (weight_stack p));
        (lit "limit", Num (limit p));
        (lit "min_stars", Num (min_stars p)) ].

Definition nullable (s : option jsstring) : value :=
  match s with Some x => Str x | None => Null end.

(** The parsed JSON of a value of each response interface. *)
Definition SearchResultItem_value (it : SearchResultItem) : value :=
  Obj [ (lit "full_name", Str (full_name it));
        (lit "url", Str (url it));
        (lit "description", nullable (description it));
        (lit "topics", Arr (Str <$> topics it));
        (lit "language_primary", nullable (language_primary it));
        (lit "stars", Num (stars it));
        (lit "similarity_score", Num (similarity_score it));
        (lit "purpose_score", Num (purpose_score it));
        (lit "stack_score", Num (stack_score it)) ].

Definition QueryRepo_value (q : QueryRepo) : value :=
  Obj ((lit "full_name", Str (qr_full_name q))
       :: match qr_description q with
          | Some d => [(lit "description", Str d)]
          | None => []
          end).

Definition SearchResponse_value (r : SearchResponse) : value :=
  Obj [ (lit "query_repo", QueryRepo_value (query_repo r));
        (lit "results", Arr (SearchResultItem_value <$> results r));
        (lit "indexed_count", Num (indexed_count r));
        (lit "search_time_ms", Num (search_time_ms r)) ].

(** The request handed to [fetch]: the URL and the [RequestInit] fields the
    client sets (the abort signal of [fetchWithTimeout] is plumbing). *)
Record Request : Type := {
  req_url : jsstring;
  req_method : option jsstring;
  req_headers : list (jsstring * jsstring);
  req_body : option jsstring
}.

(** A [Response] as the client reads it: [res.ok] and the settled promise
    of [res.json()], rejected when the body is not JSON. *)
Record Response : Type := { ok : bool; json : outcome value }.

(** [new Error(message)] for a string [message]. *)
Definition new_Error (msg : jsstring) : Error :=
  {| name := lit "Error"; message := msg |}.

Section client.

(** [import.meta.env.VITE_API_URL], absent or a string. *)
Variable VITE_API_URL : option jsstring.
(** The runtime's [JSON.stringify] and Number::toString. *)
Variable JSON_stringify : value -> jsstring.
Variable Number_toString : float -> jsstring.
(** The TypeErrors the engine raises when a property of [null] is read
    and when an object cannot be converted to a primitive value; their
    message texts are engine specific. *)
Variable null_property_error : Error.
Variable not_primitive_error : Error.
(** The network: what [fetch] settles to for a request, a rejection
    standing for a network failure or the 30 s abort. *)
Variable fetch : Request -> outcome Response.

(** [throw new Error(v)] for a [v] that is not [undefined]: the
    constructor converts [v] to the message string, and what is thrown is
    the new Error, or the TypeError of a conversion that failed. *)
Definition throw_new_Error (v : value) : thrown :=
  match ToString Number_toString v with
  | Some msg => ThrownError (new_Error msg)
  | None => ThrownError not_primitive_error
  end.

(** [const API_BASE = import.meta.env.VITE_API_URL || "http://localhost:8000"] *)
Definition API_BASE : jsstring :=
  match VITE_API_URL with
  | Some u => if truthy (Str u) then u else lit "http://localhost:8000"
  | None => lit "http://localhost:8000"
  end.

(** [fetchWithTimeout(url, options)]: the requests issued, and the settled
    response. *)
Definition fetchWithTimeout (req : Request) : list Request * outcome Response :=
  ([req], fetch req).

Definition search_request (params : SearchRequest) : Request :=
  {| req_url := API_BASE ++ lit "/api/search";
     req_method := Some (lit "POST");
     req_headers := [(lit "Content-Type", lit "application/json")];
     req_body := Some (JSON_stringify (SearchRequest_value params)) |}.

(** [searchRepos(params)]: the requests issued and the settled promise. *)
Definition searchRepos (params : SearchRequest) : list Request * outcome value :=
  let '(sent, settled) := fetchWithTimeout (search_request params) in
  (sent,
   match settled with
   | Rejected e => Rejected e
   | Resolved res =>
       if negb (ok res) then
         let err :=
           match json res with
           | Resolved v => v
           | Rejected _ => Obj [(lit "detail", Str (lit "Search failed"))]
           end in
         match get_prop err (lit "detail") with
         | None => Rejected (ThrownError null_property_error)
         | Some detail =>
             Rejected (throw_new_Error
                         (if truthy detail then detail else Str (lit "Search failed")))
         end
       else json res
   end).

(** [indexRepo(repo_url)]: the same shape as [searchRepos], on
    [/api/index], with the object [{ repo_url }] as body. *)
Definition index_request (repo_url : jsstring) : Request :=
  {| req_url := API_BASE ++ lit "/api/index";
     req_method := Some (lit "POST");
     req_headers := [(lit "Content-Type", lit "application/json")];
     req_body := Some (JSON_stringify (Obj [(lit "repo_url", Str repo_url)])) |}.

Definition indexRepo (repo_url : jsstring) : list Request * outcome value :=
  let '(sent, settled) := fetchWithTimeout (index_request repo_url) in
  (sent,
   match settled with
   | Rejected e => Rejected e
   | Resolved res =>
       if negb (ok res) then
         let err :=
           match json res with
           | Resolved v => v
           | Rejected _ => Obj [(lit "detail", Str (lit "Indexing failed"))]
           end in
         match get_prop err (lit "detail") with
         | None => Rejected (ThrownError null_property_error)
         | Some detail =>
             Rejected (throw_new_Error
                         (if truthy detail then detail else Str (lit "Indexing failed")))
         end
       else json res
   end).

(** [getHealth()]: [fetchWithTimeout] with the URL alone, so no method,
    headers or body are set; the body of a failed response is not read. *)
Definition health_request : Request :=
  {| req_url := API_BASE ++ lit "/api/health";
     req_method := None; req_headers := []; req_body := None |}.

Definition getHealth : list Request * outcome value :=
  let '(sent, settled) := fetchWithTimeout health_request in
  (sent,
   match settled with
   | Rejected e => Rejected e
   | Resolved res =>
       if negb (ok res)
       then Rejected (ThrownError (new_Error (lit "Health check failed")))
       else json res
   end).

(** [getGitHubAuthUrl()] *)
Definition getGitHubAuthUrl : jsstring := API_BASE ++ lit "/api/auth/github".

End client.

(** [interface HealthResponse]; [number | null] is an option. *)
Record HealthResponse : Type := {
  status : jsstring;
  indexed_repos : float;
  qdrant_connected : bool;
  github_rate_limit_remaining : option float
}.

Definition HealthResponse_value (h : HealthResponse) : value :=
  Obj [ (lit "status", Str (status h));
        (lit "indexed_repos", Num (indexed_repos h));
        (lit "qdrant_connected", Bool (qdrant_connected h));
        (lit "github_rate_limit_remaining",
         match github_rate_limit_remaining h with Some x => Num x | None => Null end) ].

End Client.

(** ** components/WeightSliders.tsx *)

Module WeightSliders.
Import Js.

Definition stackWeight (purposeWeight : float) : float :=
  (Math_round ((1 - purposeWeight) * 100) / 100)%float.

Definition purposePct (purposeWeight : float) : float :=
  Math_round (purposeWeight * 100)%float.

Definition stackPct (purposeWeight : float) : float :=
  Math_round (stackWeight purposeWeight * 100)%float.

(** [onChange]: the range input (min 0, max 100, integer steps) reports its
    position [n] as a decimal string, and
    [onWeightChange(Number(e.target.value) / 100)] is called. *)
Definition onChange (n : Z) : float := (of_Z n / 100)%float.

(** The check of one slider position [n], as a computation on binary64:
    the weights are [n / 100] and [(100 - n) / 100] and add up to 1, the
    percentages are [n] and [100 - n] and add up to 100. *)
Definition position_ok (n : Z) : bool :=
  let pw := onChange n in
  let sw := stackWeight pw in
  PrimFloat.Leibniz.eqb pw (of_Z n / 100)
  && PrimFloat.Leibniz.eqb sw (of_Z (100 - n) / 100)
  && PrimFloat.Leibniz.eqb (pw + sw) 1
  && PrimFloat.Leibniz.eqb (purposePct pw) (of_Z n)
  && PrimFloat.Leibniz.eqb (stackPct pw) (of_Z (100 - n))
  && PrimFloat.Leibniz.eqb (purposePct pw + stackPct pw) 100.

End WeightSliders.

(** ** components/ResultsList.tsx *)

Module ResultsList.
Import Js.

(** [interface ResultsListProps], with the values passed at run time. *)
Record Props : Type := {
  results : value;
  indexedCount : value;
  searchTimeMs : value;
  queryRepo : value
}.

End ResultsList.

(** ** App.tsx *)

Module App.
Import Js.

(** The component state held by the [useState] hooks. *)
Record State : Type := {
  loading : bool;
  error : option jsstring;
  searchResult : value;
  purposeWeight : float;
  indexedCount : value
}.

Definition initial : State :=
  {| loading := false; error := None; searchResult := Null;
     purposeWeight := 0.7; indexedCount := Num 0 |}.

Definition setLoading (b : bool) (st : State) : State :=
  {| loading := b; error := error st; searchResult := searchResult st;
     purposeWeight := purposeWeight st; indexedCount := indexedCount st |}.

Definition setError (e : option jsstring) (st : State) : State :=
  {| loading := loading st; error := e; searchResult := searchResult st;
     purposeWeight := purposeWeight st; indexedCount := indexedCount st |}.

Definition setSearchResult (r : value) (st : State) : State :=
  {| loading := loading st; error := error st; searchResult := r;
     purposeWeight := purposeWeight st; indexedCount := indexedCount st |}.

Definition setPurposeWeight (w : float) (st : State) : State :=
  {| loading := loading st; error := error st; searchResult := searchResult st;
     purposeWeight := w; indexedCount := indexedCount st |}.

Definition setIndexedCount (c : value) (st : State) : State :=
  {| loading := loading st; error := error st; searchResult := searchResult st;
     purposeWeight := purposeWeight st; indexedCount := c |}.

(** The parameters [handleSearch] builds from the state it closes over. *)
Definition search_params (url : jsstring) (st : State) : Client.SearchRequest :=
  {| Client.repo_url := url;
     Client.weight_purpose := purposeWeight st;
     Client.weight_stack := (Math_round ((1 - purposeWeight st) * 100) / 100)%float;
     Client.limit := 20;
     Client.min_stars := 0 |}.

(** The three updates [handleSearch] makes before it awaits the request:
    the state the page is in for as long as the request is pending. *)
Definition search_started (st : State) : State :=
  setSearchResult Null (setError None (setLoading true st)).

(** [e instanceof Error ? e.message : "Search failed"] *)
Definition catch_message (e : thrown) : jsstring :=
  match e with
  | ThrownError err => message err
  | ThrownOther _ => lit "Search failed"
  end.

Section app.

Variable VITE_API_URL : option jsstring.
Variable JSON_stringify : value -> jsstring.
Variable Number_toString : float -> jsstring.
Variable null_property_error : Error.
Variable not_primitive_error : Error.
Variable fetch : Client.Request -> outcome Client.Response.

(** [handleSearch(url)]: the requests issued and the state once the
    handler has run to its end, which it does when the promise of
    [searchRepos] settles; until then the state is [search_started]. *)
Definition handleSearch (url : jsstring) (st : State) : list Client.Request * State :=
  let st := search_started st in
  let '(sent, settled) :=
    Client.searchRepos VITE_API_URL JSON_stringify Number_toString
      null_property_error not_primitive_error fetch (search_params url st) in
  let st :=
    match settled with
    | Resolved result =>
        let st := setSearchResult result st in
        match get_prop result (lit "indexed_count") with
        | Some c => setIndexedCount c st
        | None => setError (Some (message null_property_error)) st
        end
    | Rejected e => setError (Some (catch_message e)) st
    end in
  (sent, setLoading false st).

(** The effect run once on mount:
    [getHealth().then((h) => setIndexedCount(h.indexed_repos)).catch(() => { })].
    [st] is the state at the time the promise settles; a rejection, and a
    TypeError raised inside the [then] callback, end in the empty [catch]. *)
Definition onMount (st : State) : list Client.Request * State :=
  let '(sent, settled) := Client.getHealth VITE_API_URL fetch in
  (sent,
   match settled with
   | Resolved h =>
       match get_prop h (lit "indexed_repos") with
       | Some c => setIndexedCount c st
       | None => st
       end
   | Rejected _ => st
   end).

End app.

(** The elements [App] returns inside [<main>]: whether the loading
    placeholder is among them, the [role="alert"] banner with its text, and
    the [<ResultsList>] element with its props.  (The text React renders
    for a falsy [searchResult] that is a number is not recorded.) *)
Record View : Type := {
  loading_state : bool;
  alert_banner : option jsstring;
  results_list : option ResultsList.Props
}.

(** The props of [<ResultsList>], read from [searchResult]; [None] when
    [searchResult.query_repo.full_name] throws because [query_repo] is
    [undefined] or [null]. *)
Definition results_props (searchResult : value) : option ResultsList.Props :=
  results ← get_prop searchResult (lit "results");
  indexed_count ← get_prop searchResult (lit "indexed_count");
  search_time_ms ← get_prop searchResult (lit "search_time_ms");
  query_repo ← get_prop searchResult (lit "query_repo");
  full_name ← get_prop query_repo (lit "full_name");
  Some {| ResultsList.results := results;
          ResultsList.indexedCount := indexed_count;
          ResultsList.searchTimeMs := search_time_ms;
          ResultsList.queryRepo := full_name |}.

(** The function body of [App] on a state: [None] when evaluating it
    throws (React then unmounts the page), which happens when the props of
    [<ResultsList>] cannot be read or when [indexedCount.toLocaleString()]
    of the footer throws. *)
Definition render (st : State) : option View :=
  let banner :=
    match error st with
    | Some msg => if truthy (Str msg) then Some msg else None
    | None => None
    end in
  list ←
    (if truthy (searchResult st) && negb (loading st)
     then Some <$> results_props (searchResult st)
     else Some None);
  if toLocaleString_returns (indexedCount st)
  then Some {| loading_state := loading st; alert_banner := banner;
               results_list := list |}
  else None.

End App.

(** ** Small networks used to run the client on *)

Module ClientFixtures.
Import Js.

(** Runs that do not look at serialised text use empty renderings. *)
Definition no_text {A} : A -> jsstring := fun _ => [].

Definition type_error : Error :=
  {| name := lit "TypeError"; message := lit "null has no properties" |}.
Definition primitive_error : Error :=
  {| name := lit "TypeError";
     message := lit "Cannot convert object to primitive value" |}.

(** A network that answers every request with [res]. *)
Definition answers (res : Client.Response) : Client.Request -> outcome Client.Response :=
  fun _ => Resolved res.

(** A network that is down. *)
Definition failed_to_fetch : thrown :=
  ThrownError {| name := lit "TypeError"; message := lit "Failed to fetch" |}.
Definition offline : Client.Request -> outcome Client.Response :=
  fun _ => Rejected failed_to_fetch.

(** The settled [res.json()] of a body that is not JSON. *)
Definition not_json : outcome value :=
  Rejected (ThrownError {| name := lit "SyntaxError";
                           message := lit "Unexpected token" |}).

Definition not_ok (body : outcome value) : Client.Response :=
  {| Client.ok := false; Client.json := body |}.
Definition ok_with (body : value) : Client.Response :=
  {| Client.ok := true; Client.json := Resolved body |}.

(** The responses of the client's and the page's own tests. *)
Definition health_500 : Client.HealthResponse :=
  {| Client.status := lit "ok"; Client.indexed_repos := 500;
     Client.qdrant_connected := true;
     Client.github_rate_limit_remaining := Some 4000%float |}.

Definition one_result : Client.SearchResponse :=
  {| Client.query_repo :=
       {| Client.qr_full_name := lit "test/repo"; Client.qr_description := None |};
     Client.results :=
       [ {| Client.full_name := lit "similar/repo";
            Client.url := lit "https://github.com/similar/repo";
            Client.description := Some (lit "A similar repo");
            Client.topics := [lit "test"];
            Client.language_primary := Some (lit "TypeScript");
            Client.stars := 1000;
            Client.similarity_score := 0.85;
            Client.purpose_score := 0.8;
            Client.stack_score := 0.9 |} ];
     Client.indexed_count := 500;
     Client.search_time_ms := 42 |}.

End ClientFixtures.

(** ** components/SearchInput.tsx *)

Module SearchInput.
Import Js.

(** [handleSubmit]: the arguments of the calls made to [onSearch]. *)
Definition handleSubmit (url : jsstring) : list jsstring :=
  if truthy (Str (trim url)) then [trim url] else [].

(** The [disabled] attribute of the submit button. *)
Definition button_disabled (isLoading : bool) (url : jsstring) : bool :=
  isLoading || negb (truthy (Str (trim url))).

End SearchInput.

(** ** hooks/useTheme.ts *)

Module UseTheme.
Import Js.

Definition STORAGE_KEY : jsstring := lit "reporadar-theme".

(** The hook's state and the browser's [localStorage] it writes to.  At run
    time a theme is a string; the type [Theme] is erased. *)
Record State : Type := {
  theme : jsstring;
  localStorage : gmap jsstring jsstring
}.

(** The two values of the type [Theme]. *)
Definition valid_theme (t : jsstring) : Prop := t = lit "light" \/ t = lit "dark".

(** [getInitialTheme()]; [prefers_dark] is
    [window.matchMedia('(prefers-color-scheme: dark)').matches]. *)
Definition getInitialTheme (storage : gmap jsstring jsstring)
    (prefers_dark : bool) : jsstring :=
  let system := if prefers_dark then lit "dark" else lit "light" in
  match storage !! STORAGE_KEY with
  | Some saved =>
      if bool_decide (saved = lit "light") || bool_decide (saved = lit "dark")
      then saved else system
  | None => system
  end.

Definition mount (storage : gmap jsstring jsstring) (prefers_dark : bool) : State :=
  {| theme := getInitialTheme storage prefers_dark; localStorage := storage |}.

(** [toggleTheme()] *)
Definition toggleTheme (st : State) : State :=
  let next := if bool_decide (theme st = lit "light") then lit "dark" else lit "light" in
  {| theme := next; localStorage := <[STORAGE_KEY := next]> (localStorage st) |}.

(** The states the hook can be in: after mounting, and after any number of
    toggles. *)
Inductive reachable : State -> Prop :=
| reach_mount storage prefers_dark : reachable (mount storage prefers_dark)
| reach_toggle st : reachable st -> reachable (toggleTheme st).

End UseTheme.

(** ** components/ThemeToggle.tsx *)

Module ThemeToggle.
Import Js.

(** [const nextTheme = theme === 'light' ? 'dark' : 'light'] *)
Definition nextTheme (theme : jsstring) : jsstring :=
  if bool_decide (theme = lit "light") then lit "dark" else lit "light".

(** The button's [aria-label]. *)
Definition aria_label (theme : jsstring) : jsstring :=
  lit "Switch to " ++ nextTheme theme ++ lit " theme".

(** The name of the icon shown inside the button. *)
Definition icon (theme : jsstring) : jsstring :=
  if bool_decide (theme = lit "dark") then lit "light_mode" else lit "dark_mode".

End ThemeToggle.

(* ===================================================================== *)
(** * Part II: properties                                                 *)
(* ===================================================================== *)

(** ** Order and arithmetic facts on binary64 *)

Module Float64Facts.
Import Float64.

Lemma digits2_pos_bound m : (Zpos m < 2 ^ Zpos (digits2_pos m))%Z.
Proof.
  induction m as [m IH|m IH|]; cbn [digits2_pos];
    rewrite ?Pos2Z.inj_succ, ?Z.pow_succ_r by lia; lia.
Qed.

Lemma valid_in_range X : valid_binary X = true -> in_range X.
Proof.
  destruct X as [s|s| |s m e]; simpl; trivial.
  unfold bounded, canonical_mantissa, fexp, SpecFloat.emin.
  intros H. apply andb_prop in H. destruct H as [Hc Hb].
  apply Z.eqb_eq in Hc. apply Z.leb_le in Hb.
  change prec with 53%Z in *. change emax with 1024%Z in *.
  pose proof (digits2_pos_bound m) as Hd.
  assert (Z.pos (digits2_pos m) <= 53)%Z by lia.
  assert (2 ^ Z.pos (digits2_pos m) <= 2 ^ 53)%Z by (apply Z.pow_le_mono_r; lia).
  lia.
Qed.

Lemma in_range_Prim2SF x : in_range (Prim2SF x).
Proof. apply valid_in_range, Prim2SF_valid. Qed.

(** Comparison of binary64 values is comparison of their ranks. *)
Lemma SFcompare_rank X Y :
  in_range X -> in_range Y ->
  SFcompare X Y =
    match rank X, rank Y with
    | Some a, Some b => Some (a ?= b)%Z
    | _, _ => None
    end.
Proof.
  assert (H53 : (2 ^ 53 = 9007199254740992)%Z) by reflexivity.
  assert (H65 : (2 ^ 65 = 36893488147419103232)%Z) by reflexivity.
  destruct X as [sx|sx| |sx mx ex], Y as [sy|sy| |sy my ey];
    unfold in_range, rank; rewrite ?H53, ?H65; intros HX HY;
    try destruct sx; try destruct sy; cbn [SFcompare]; try reflexivity;
    f_equal; symmetry;
    try (apply Z.compare_lt_iff; lia);
    try (apply Z.compare_gt_iff; lia).
  all: change (PosDef.Pos.compare_cont Eq mx my) with (Z.pos mx ?= Z.pos my)%Z.
  all: destruct (Z.compare_spec ex ey);
    destruct (Z.compare_spec (Z.pos mx) (Z.pos my)); cbn [CompOpp];
    first [ apply Z.compare_eq_iff; lia
          | apply Z.compare_lt_iff; lia
          | apply Z.compare_gt_iff; lia ].
Qed.

Lemma compare_ord x y :
  SFcompare (Prim2SF x) (Prim2SF y) =
    match ord x, ord y with
    | Some a, Some b => Some (a ?= b)%Z
    | _, _ => None
    end.
Proof. apply SFcompare_rank; apply in_range_Prim2SF. Qed.

Lemma ltb_ord x y :
  (x <? y)%float =
    match ord x, ord y with Some a, Some b => (a <? b)%Z | _, _ => false end.
Proof.
  rewrite FloatAxioms.ltb_spec. unfold SFltb. rewrite compare_ord.
  destruct (ord x) as [a|], (ord y) as [b|]; try reflexivity;
    unfold Z.ltb; now destruct (a ?= b)%Z.
Qed.

Lemma leb_ord x y :
  (x <=? y)%float =
    match ord x, ord y with Some a, Some b => (a <=? b)%Z | _, _ => false end.
Proof.
  rewrite FloatAxioms.leb_spec. unfold SFleb. rewrite compare_ord.
  destruct (ord x) as [a|], (ord y) as [b|]; try reflexivity;
    unfold Z.leb; now destruct (a ?= b)%Z.
Qed.

Lemma eqb_ord x y :
  (x =? y)%float =
    match ord x, ord y with Some a, Some b => (a =? b)%Z | _, _ => false end.
Proof.
  rewrite FloatAxioms.eqb_spec. unfold SFeqb. rewrite compare_ord.
  destruct (ord x) as [a|], (ord y) as [b|]; try reflexivity.
  destruct (Z.eqb_spec a b), (Z.compare_spec a b); try reflexivity; lia.
Qed.

Lemma ge_ord x y :
  Py.ge x y =
    match ord x, ord y with Some a, Some b => (b <=? a)%Z | _, _ => false end.
Proof.
  unfold Py.ge. rewrite leb_ord.
  now destruct (ord x), (ord y).
Qed.

(** *** Multiplying by one, adding a zero *)

Lemma digits2_pos_iter_xO (n : nat) m :
  Zpos (digits2_pos (Nat.iter n xO m)) = (Zpos (digits2_pos m) + Z.of_nat n)%Z.
Proof.
  induction n as [|n IH].
  - change (Nat.iter 0 xO m) with m. lia.
  - change (Nat.iter (S n) xO m) with (xO (Nat.iter n xO m)).
    change (digits2_pos (xO ?p)) with (Pos.succ (digits2_pos p)).
    rewrite Pos2Z.inj_succ, IH. lia.
Qed.

Lemma mul_pow52 m : Pos.mul 4503599627370496 m = Nat.iter 52 xO m.
Proof. reflexivity. Qed.

Lemma digits2_pos_scaled m :
  Z.pos (digits2_pos (4503599627370496 * m)) = (Z.pos (digits2_pos m) + 52)%Z.
Proof. rewrite mul_pow52, digits2_pos_iter_xO. reflexivity. Qed.

Lemma shr_52 m :
  SpecFloat.iter_pos shr_1 52
    {| shr_m := Zpos (Pos.mul 4503599627370496 m); shr_r := false; shr_s := false |}
  = {| shr_m := Zpos m; shr_r := false; shr_s := false |}.
Proof. reflexivity. Qed.

Lemma shr_fexp_canonical m e :
  canonical64 m e ->
  shr_fexp prec emax (Z.pos m) e loc_Exact
  = ({| shr_m := Z.pos m; shr_r := false; shr_s := false |}, e).
Proof.
  unfold canonical64. intros Hc.
  unfold shr_fexp, Zdigits2, fexp, SpecFloat.emin.
  replace (Z.max (Z.pos (digits2_pos m) + e - prec) (3 - emax - prec) - e)%Z
    with 0%Z by lia.
  reflexivity.
Qed.

Lemma shr_fexp_scaled m e :
  canonical64 m e ->
  shr_fexp prec emax (Z.pos (4503599627370496 * m)) (-52 + e) loc_Exact
  = ({| shr_m := Z.pos m; shr_r := false; shr_s := false |}, e).
Proof.
  unfold canonical64. intros Hc.
  unfold shr_fexp, Zdigits2, fexp, SpecFloat.emin.
  rewrite digits2_pos_scaled.
  replace (Z.max (Z.pos (digits2_pos m) + 52 + (-52 + e) - prec)
             (3 - emax - prec) - (-52 + e))%Z with 52%Z by lia.
  cbn [shr shr_record_of_loc]. rewrite shr_52.
  f_equal. lia.
Qed.

(** [1.0 * x] is [x], bit for bit. *)
Lemma SF64mul_one_l X :
  valid_binary X = true ->
  SF64mul (S754_finite false 4503599627370496 (-52)) X = X.
Proof.
  destruct X as [s|s| |s m e]; try reflexivity.
  unfold valid_binary, SpecFloat.valid_binary, bounded, canonical_mantissa,
    fexp, SpecFloat.emin.
  intros H. apply andb_prop in H. destruct H as [Hc Hb].
  apply Z.eqb_eq in Hc.
  unfold SF64mul, SFmul. cbn [xorb].
  unfold binary_round_aux.
  rewrite (shr_fexp_scaled m e Hc).
  cbn [loc_of_shr_record shr_m round_nearest_even].
  rewrite (shr_fexp_canonical m e Hc).
  cbn [shr_m]. rewrite Hb. reflexivity.
Qed.

Lemma mul_one_l x : (1 * x)%float = x.
Proof.
  apply Prim2SF_inj. rewrite mul_spec.
  change (Prim2SF 1) with (S754_finite false 4503599627370496 (-52)).
  apply SF64mul_one_l, Prim2SF_valid.
Qed.

Lemma is_finite_Prim2SF x :
  is_finite x = true ->
  (exists s, Prim2SF x = S754_zero s) \/ (exists s m e, Prim2SF x = S754_finite s m e).
Proof.
  unfold is_finite, is_nan, is_infinity.
  rewrite !FloatAxioms.eqb_spec, abs_spec.
  change (Prim2SF infinity) with (S754_infinity false).
  destruct (Prim2SF x) as [s|s| |s m e]; cbn; try discriminate; eauto 6.
  destruct s; discriminate.
Qed.

(** With weights [1.0] and [0.0] the weighted sum of a score [p] and a
    finite score [s] stands where [p] stands on the number line. *)
Lemma ord_degenerate p s :
  is_finite s = true -> ord (1 * p + 0 * s)%float = ord p.
Proof.
  intros Hs. rewrite mul_one_l. unfold ord.
  rewrite add_spec, mul_spec.
  change (Prim2SF 0) with (S754_zero false).
  destruct (is_finite_Prim2SF s Hs) as [[b ->]|(b & m & e & ->)];
    destruct (Prim2SF p) as [sp|sp| |sp mp ep]; try reflexivity;
    destruct sp, b; reflexivity.
Qed.

(** The finite numbers are the zeros and the values with a mantissa. *)
Lemma is_finite_spec x :
  is_finite x =
    match Prim2SF x with
    | S754_zero _ | S754_finite _ _ _ => true
    | _ => false
    end.
Proof.
  unfold is_finite, is_nan, is_infinity. rewrite !eqb_ord. unfold ord.
  rewrite abs_spec. change (Prim2SF infinity) with (S754_infinity false).
  pose proof (in_range_Prim2SF x) as Hr.
  destruct (Prim2SF x) as [s|s| |s m e]; cbn [rank SFabs]; try reflexivity.
  - by destruct s.
  - rewrite Z.eqb_refl. cbn [negb orb]. cbn [in_range] in Hr.
    destruct (Z.eqb_spec ((e + 1075) * 2 ^ 53 + Z.pos m) (2 ^ 65)) as [E|]; [|done].
    assert (H53 : (2 ^ 53 = 9007199254740992)%Z) by reflexivity.
    assert (H65 : (2 ^ 65 = 36893488147419103232)%Z) by reflexivity.
    rewrite H53, H65 in *. lia.
Qed.

(** A stack score that is infinite or a NaN turns the weighted sum into a
    NaN even under the weight [0.0]. *)
Lemma ord_not_finite p s :
  is_finite s = false -> ord (1 * p + 0 * s)%float = None.
Proof.
  rewrite is_finite_spec, mul_one_l. intros Hs. unfold ord.
  rewrite add_spec, mul_spec.
  change (Prim2SF 0) with (S754_zero false).
  destruct (Prim2SF s) as [b|b| |b m e]; try discriminate;
    destruct (Prim2SF p) as [sp|sp| |sp mp ep]; reflexivity.
Qed.

End Float64Facts.

(** ** The dictionary, the slice and the sort *)

Module PyFacts.
Import Float64 Float64Facts.

Section dict.
Context {V : Type}.
Implicit Types (d : Py.dict V) (k : Z) (v : V).

Lemma wf_empty : Py.wf (@Py.empty V).
Proof.
  split; [constructor|]. intros k. cbn. rewrite lookup_empty.
  split; [intros []%elem_of_nil | intros []%is_Some_None].
Qed.

Lemma contains_spec k d : Py.contains k d = true <-> is_Some (Py.d_map d !! k).
Proof. unfold Py.contains. apply bool_decide_eq_true. Qed.

Lemma wf_setitem k v d : Py.wf d -> Py.wf (Py.setitem k v d).
Proof.
  intros [Hnd Hdom]. unfold Py.setitem.
  destruct (Py.contains k d) eqn:Hc; split; cbn.
  - exact Hnd.
  - intros k'. rewrite lookup_insert_is_Some, Hdom.
    apply contains_spec in Hc.
    destruct (decide (k = k')) as [<-|Hne]; intuition auto.
  - apply NoDup_app. split_and!; [done| |apply NoDup_singleton].
    intros k' Hin ->%list_elem_of_singleton.
    apply Hdom, contains_spec in Hin. congruence.
  - intros k'.
    rewrite elem_of_app, list_elem_of_singleton, lookup_insert_is_Some, Hdom.
    destruct (decide (k = k')) as [<-|Hne]; intuition auto.
Qed.

Lemma get_setitem k k' v d :
  Py.get k' (Py.setitem k v d) = if decide (k = k') then Some v else Py.get k' d.
Proof. unfold Py.get, Py.setitem. cbn. apply lookup_insert. Qed.

Lemma elem_of_items k v d :
  Py.wf d -> (k, v) ∈ Py.items d <-> Py.get k d = Some v.
Proof.
  intros [_ Hdom]. unfold Py.items, Py.get. rewrite list_elem_of_omap. split.
  - intros (k' & _ & Hk). destruct (Py.d_map d !! k') eqn:E; [|done].
    injection Hk as <- <-. done.
  - intros Hk. exists k. split; [apply Hdom; eauto|]. now rewrite Hk.
Qed.

Lemma items_keys d : Py.wf d -> (Py.items d).*1 = Py.d_keys d.
Proof.
  intros [_ Hdom]. unfold Py.items.
  assert (forall k, k ∈ Py.d_keys d -> is_Some (Py.d_map d !! k)) as Hin
    by (intros; now apply Hdom).
  clear Hdom. induction (Py.d_keys d) as [|k ks IH]; [done|]. cbn.
  destruct (Hin k) as [v ->]; [left|]. cbn. f_equal.
  apply IH. intros k' Hk'. apply Hin. now right.
Qed.

End dict.

(** *** Slices *)

Lemma slice_to_fmap {A B} (f : A -> B) (l : list A) (stop : Z) :
  Py.slice_to (f <$> l) stop = f <$> Py.slice_to l stop.
Proof.
  unfold Py.slice_to. rewrite length_fmap.
  destruct (0 <=? stop)%Z; now rewrite fmap_take.
Qed.

Lemma slice_to_length {A} (l : list A) (stop : Z) :
  (0 <= stop)%Z -> length (Py.slice_to l stop) <= Z.to_nat stop.
Proof.
  intros H. unfold Py.slice_to.
  destruct (Z.leb_spec 0 stop); [|lia]. rewrite length_take. lia.
Qed.

Lemma slice_to_prefix {A} (l : list A) (stop : Z) :
  exists n, Py.slice_to l stop = take n l.
Proof. unfold Py.slice_to. destruct (0 <=? stop)%Z; eauto. Qed.

Lemma slice_to_all {A} (l : list A) (stop : Z) :
  (Z.of_nat (length l) <= stop)%Z -> Py.slice_to l stop = l.
Proof.
  intros H. unfold Py.slice_to.
  destruct (Z.leb_spec 0 stop); [|lia]. apply take_ge. lia.
Qed.

(** *** The stable descending sort *)

Section sort.
Context {A : Type} (key : A -> float).
Implicit Types (x y : A) (l : list A).

#[local] Abbreviation desc := (Py.desc key).

Lemma insert_desc_perm x l : Py.insert_desc key x l ≡ₚ x :: l.
Proof.
  induction l as [|y l IH]; cbn; [done|].
  destruct (key x <? key y)%float; [|done].
  rewrite IH. apply Permutation_swap.
Qed.

Lemma sort_reverse_perm l : Py.sort_reverse key l ≡ₚ l.
Proof.
  induction l as [|x l IH]; cbn; [done|].
  rewrite insert_desc_perm. now f_equiv.
Qed.

Lemma desc_trans x y z : desc x y -> desc y z -> desc x z.
Proof.
  unfold Py.desc. rewrite !leb_ord.
  destruct (ord (key x)), (ord (key y)), (ord (key z)); try done. lia.
Qed.

Lemma insert_desc_sorted x l :
  is_nan (key x) = false -> Forall (fun y => is_nan (key y) = false) l ->
  StronglySorted desc l -> StronglySorted desc (Py.insert_desc key x l).
Proof.
  intros Hx Hl Hs. induction Hs as [|y l Hs IH Hy]; cbn.
  - repeat constructor.
  - apply Forall_cons in Hl as [Hny Hl].
    assert (is_Some (ord (key x)) /\ is_Some (ord (key y))) as [[a Ha] [b Hb]].
    { unfold is_nan in Hx, Hny. rewrite eqb_ord in Hx, Hny.
      destruct (ord (key x)), (ord (key y)); naive_solver. }
    rewrite ltb_ord, Ha, Hb. destruct (Z.ltb_spec a b).
    + constructor; [auto|].
      rewrite (insert_desc_perm x l). constructor; [|done].
      unfold Py.desc. rewrite leb_ord, Ha, Hb. lia.
    + assert (desc x y) by (unfold Py.desc; rewrite leb_ord, Ha, Hb; lia).
      constructor; [by constructor|]. constructor; [done|].
      eapply Forall_impl; [exact Hy|]. intros z Hz. by eapply desc_trans.
Qed.

Lemma sort_reverse_sorted l :
  Forall (fun y => is_nan (key y) = false) l ->
  StronglySorted desc (Py.sort_reverse key l).
Proof.
  induction 1 as [|x l Hx Hl IH]; [constructor|].
  change (Py.sort_reverse key (x :: l))
    with (Py.insert_desc key x (Py.sort_reverse key l)).
  apply insert_desc_sorted; [done| |done].
  now rewrite sort_reverse_perm.
Qed.

(** Stability: the elements of any one key value keep their order. *)
Lemma insert_desc_stable (v : float) x l :
  List.filter (fun y => (key y =? v)%float) (Py.insert_desc key x l)
  = List.filter (fun y => (key y =? v)%float) (x :: l).
Proof.
  induction l as [|y l IH]; [done|]. cbn [Py.insert_desc].
  destruct (key x <? key y)%float eqn:Hlt; [|done].
  cbn [List.filter] in *. rewrite IH.
  rewrite ltb_ord in Hlt. rewrite !eqb_ord.
  destruct (ord (key x)) as [a|], (ord (key y)) as [b|], (ord v) as [c|];
    try done.
  destruct (Z.eqb_spec a c), (Z.eqb_spec b c); try done. lia.
Qed.

Lemma sort_reverse_stable (v : float) l :
  List.filter (fun y => (key y =? v)%float) (Py.sort_reverse key l)
  = List.filter (fun y => (key y =? v)%float) l.
Proof.
  induction l as [|x l IH]; [done|].
  change (Py.sort_reverse key (x :: l))
    with (Py.insert_desc key x (Py.sort_reverse key l)).
  rewrite insert_desc_stable. cbn [List.filter]. now rewrite IH.
Qed.

Lemma eqb_self (v : float) : is_nan v = false -> (v =? v)%float = true.
Proof. unfold is_nan. by intros H%negb_false_iff. Qed.

(** Descending order and stability leave no choice: two lists that descend
    by [key] and hold the elements of every key value in the same order
    are one list. *)
Lemma descending_stable_unique l1 l2 :
  Forall (fun y => is_nan (key y) = false) l1 ->
  Forall (fun y => is_nan (key y) = false) l2 ->
  StronglySorted desc l1 -> StronglySorted desc l2 ->
  (forall v, List.filter (fun y => (key y =? v)%float) l1
             = List.filter (fun y => (key y =? v)%float) l2) ->
  l1 = l2.
Proof.
  intros H1 H2 S1. revert l2 H2.
  induction S1 as [|x l1 S1 IH Hx]; intros l2 H2 S2 Hf.
  - destruct l2 as [|y l2]; [done|]. apply Forall_cons in H2 as [Hy _].
    specialize (Hf (key y)). cbn [List.filter] in Hf.
    rewrite (eqb_self _ Hy) in Hf. discriminate.
  - apply Forall_cons in H1 as [Hnx H1].
    destruct l2 as [|y l2].
    { specialize (Hf (key x)). cbn [List.filter] in Hf.
      rewrite (eqb_self _ Hnx) in Hf. discriminate. }
    apply Forall_cons in H2 as [Hny H2].
    apply StronglySorted_inv in S2 as [S2 Hy].
    assert (x = y) as <-.
    { pose proof (Hf (key x)) as Hfx. cbn [List.filter] in Hfx.
      rewrite (eqb_self _ Hnx) in Hfx.
      destruct (key y =? key x)%float eqn:E; [by injection Hfx|].
      exfalso.
      assert (x ∈ l2) as Hx2.
      { apply list_elem_of_In.
        apply (proj1 (filter_In (fun y => (key y =? key x)%float) x l2)).
        rewrite <- Hfx. by left. }
      pose proof (Hf (key y)) as Hfy. cbn [List.filter] in Hfy.
      rewrite (eqb_self _ Hny) in Hfy.
      assert ((key x =? key y)%float = false) as E'.
      { rewrite eqb_ord in E |- *.
        destruct (ord (key x)), (ord (key y)); try done.
        by rewrite Z.eqb_sym. }
      rewrite E' in Hfy.
      assert (y ∈ l1) as Hy1.
      { apply list_elem_of_In.
        apply (proj1 (filter_In (fun z => (key z =? key y)%float) y l1)).
        rewrite Hfy. by left. }
      rewrite Forall_forall in Hx, Hy.
      pose proof (Hx y Hy1) as Hxy. pose proof (Hy x Hx2) as Hyx.
      unfold Py.desc in Hxy, Hyx. rewrite leb_ord in Hxy, Hyx.
      rewrite eqb_ord in E.
      destruct (ord (key x)) as [a|], (ord (key y)) as [b|]; try done.
      apply Z.eqb_neq in E. lia. }
    f_equal. apply IH; [done..|].
    intros v. specialize (Hf v). cbn [List.filter] in Hf.
    destruct (key x =? v)%float; [by injection Hf|done].
Qed.

End sort.

(** Sorting commutes with a map that carries the keys along. *)
Lemma insert_desc_fmap {A B} (key : B -> float) (g : A -> B) x (s : list A) :
  Py.insert_desc key (g x) (g <$> s) = g <$> Py.insert_desc (key ∘ g) x s.
Proof.
  induction s as [|y s IHs]; [done|]. cbn.
  destruct (key (g x) <? key (g y))%float; cbn; [now rewrite IHs|done].
Qed.

Lemma sort_reverse_fmap {A B} (key : B -> float) (g : A -> B) (l : list A) :
  Py.sort_reverse key (g <$> l) = g <$> Py.sort_reverse (key ∘ g) l.
Proof.
  induction l as [|x l IH]; [done|].
  change (Py.sort_reverse key (g <$> x :: l))
    with (Py.insert_desc key (g x) (Py.sort_reverse key (g <$> l))).
  rewrite IH. apply insert_desc_fmap.
Qed.

(** Two keys that stand at the same places on the number line sort alike. *)
Lemma insert_desc_ext {A} (key1 key2 : A -> float) x (s : list A) :
  (forall y, y ∈ x :: s -> ord (key1 y) = ord (key2 y)) ->
  Py.insert_desc key1 x s = Py.insert_desc key2 x s.
Proof.
  intros H. induction s as [|y s IHs]; [done|]. cbn.
  rewrite !ltb_ord, (H x), (H y) by (repeat constructor).
  rewrite IHs; [done|].
  intros z Hz. apply H. apply elem_of_cons in Hz as [->|Hz]; [left|].
  right. now right.
Qed.

Lemma sort_reverse_ext {A} (key1 key2 : A -> float) (l : list A) :
  (forall x, x ∈ l -> ord (key1 x) = ord (key2 x)) ->
  Py.sort_reverse key1 l = Py.sort_reverse key2 l.
Proof.
  intros H. induction l as [|x l IH]; [done|].
  change (Py.sort_reverse key1 (x :: l))
    with (Py.insert_desc key1 x (Py.sort_reverse key1 l)).
  rewrite IH by (intros; apply H; now right).
  apply insert_desc_ext. intros y Hy. apply H.
  apply elem_of_cons in Hy as [->|Hy]; [left|].
  right. now rewrite <- (sort_reverse_perm key2 l).
Qed.

End PyFacts.

(** ** The merge of the two result sets *)

Module MergeFacts.
Import VectorStore PyFacts.

Lemma wf_merge_purpose d r : Py.wf d -> Py.wf (merge_purpose d r).
Proof. apply wf_setitem. Qed.

Lemma wf_merge_stack d r : Py.wf d -> Py.wf (merge_stack d r).
Proof. unfold merge_stack. destruct (Py.get _ _); apply wf_setitem. Qed.

Lemma wf_foldl {A} (f : Py.dict Scores -> A -> Py.dict Scores) d l :
  (forall d x, Py.wf d -> Py.wf (f d x)) -> Py.wf d -> Py.wf (foldl f d l).
Proof. intros Hf. revert d. induction l; cbn; auto. Qed.

Lemma wf_merge P S : Py.wf (merge P S).
Proof.
  unfold merge. apply wf_foldl; [apply wf_merge_stack|].
  apply wf_foldl; [apply wf_merge_purpose|]. apply wf_empty.
Qed.

(** *** The first loop *)

Lemma purpose_loop_other d P k :
  k ∉ r_id <$> P -> Py.get k (foldl merge_purpose d P) = Py.get k d.
Proof.
  revert d. induction P as [|r P IH]; intros d Hk; [done|]. cbn.
  apply not_elem_of_cons in Hk as [Hne Hk]. rewrite IH by done.
  unfold merge_purpose. rewrite get_setitem.
  destruct (decide (r_id r = k)); [congruence|done].
Qed.

Lemma purpose_loop_hit d P r :
  r ∈ P ->
  exists e, Py.get (r_id r) (foldl merge_purpose d P) = Some e
    /\ stack e = 0%float
    /\ (NoDup (r_id <$> P) -> purpose e = r_score r /\ payload e = r_payload r).
Proof.
  revert d r. induction P as [|r' P IH]; intros d r Hin;
    [by apply elem_of_nil in Hin|].
  cbn [foldl]. apply elem_of_cons in Hin as [->|HP].
  - destruct (decide (r_id r' ∈ r_id <$> P)) as [Hid|Hid].
    + apply list_elem_of_fmap in Hid as (r2 & Hid & Hr2).
      destruct (IH (merge_purpose d r') r2 Hr2) as (e & He & Hs & _).
      exists e. rewrite Hid. split_and!; [done..|].
      intros Hd. inversion Hd as [|? ? Hnot _]. subst. exfalso. apply Hnot.
      rewrite Hid. by apply list_elem_of_fmap_2.
    + rewrite purpose_loop_other by done. unfold merge_purpose.
      rewrite get_setitem. rewrite decide_True by done. eauto.
  - destruct (IH (merge_purpose d r') r HP) as (e & He & Hs & Hnd).
    exists e. split_and!; [done..|]. intros Hd. apply Hnd. by inversion Hd.
Qed.

Lemma purpose_loop_stack_zero P k e :
  Py.get k (foldl merge_purpose Py.empty P) = Some e -> stack e = 0%float.
Proof.
  intros He. destruct (decide (k ∈ r_id <$> P)) as [Hk|Hk].
  - apply list_elem_of_fmap in Hk as (r & -> & Hr).
    destruct (purpose_loop_hit Py.empty P r Hr) as (e' & He' & Hs & _). congruence.
  - rewrite purpose_loop_other in He by done. unfold Py.get in He. cbn in He.
    by rewrite lookup_empty in He.
Qed.

(** *** The second loop *)

Lemma get_merge_stack d r k :
  Py.get k (merge_stack d r) =
    if decide (r_id r = k) then
      Some match Py.get k d with
           | Some data =>
               {| purpose := purpose data; stack := r_score r; payload := payload data |}
           | None => {| purpose := 0; stack := r_score r; payload := r_payload r |}
           end
    else Py.get k d.
Proof.
  unfold merge_stack. destruct (decide (r_id r = k)) as [<-|Hne].
  - destruct (Py.get (r_id r) d); rewrite get_setitem, decide_True; done.
  - destruct (Py.get (r_id r) d); rewrite get_setitem, decide_False; done.
Qed.

Lemma stack_loop_other d S k :
  k ∉ r_id <$> S -> Py.get k (foldl merge_stack d S) = Py.get k d.
Proof.
  revert d. induction S as [|r S IH]; intros d Hk; [done|]. cbn.
  apply not_elem_of_cons in Hk as [Hne Hk]. rewrite IH by done.
  rewrite get_merge_stack.
  destruct (decide (r_id r = k)); [congruence|done].
Qed.

(** A candidate the first loop put in keeps its purpose score and payload. *)
Lemma stack_loop_keeps d S k e :
  Py.get k d = Some e ->
  exists e', Py.get k (foldl merge_stack d S) = Some e'
    /\ purpose e' = purpose e /\ payload e' = payload e.
Proof.
  revert d e. induction S as [|r S IH]; intros d e He; [eauto|]. cbn.
  destruct (decide (r_id r = k)) as [Heq|Hne].
  - edestruct (IH (merge_stack d r)) as (e' & ? & ? & ?).
    { rewrite get_merge_stack, decide_True, He by done. done. }
    eauto.
  - apply IH. rewrite get_merge_stack, decide_False by done. done.
Qed.

(** A candidate only the stack query returned. *)
Lemma stack_loop_new d S r :
  r ∈ S -> Py.get (r_id r) d = None ->
  exists e, Py.get (r_id r) (foldl merge_stack d S) = Some e
    /\ purpose e = 0%float
    /\ (NoDup (r_id <$> S) -> stack e = r_score r /\ payload e = r_payload r).
Proof.
  revert d. induction S as [|r' S IH]; intros d Hin Hd; [by apply elem_of_nil in Hin|].
  cbn. destruct (decide (r_id r' = r_id r)) as [Heq|Hne].
  - edestruct (stack_loop_keeps (merge_stack d r') S (r_id r)) as (e' & He' & Hp & Hpl).
    { rewrite get_merge_stack, decide_True, Hd by done. done. }
    exists e'. split_and!; [done..|]. intros Hnd. inversion Hnd as [|? ? Hnot HS]. subst.
    apply elem_of_cons in Hin as [->|Hin].
    + rewrite stack_loop_other in He' by done.
      rewrite get_merge_stack, decide_True, Hd in He' by done.
      injection He' as <-. done.
    + exfalso. apply Hnot. rewrite Heq. by apply list_elem_of_fmap_2.
  - apply elem_of_cons in Hin as [->|Hin]; [done|].
    destruct (IH (merge_stack d r') Hin) as (e & He & Hp & Hs).
    { rewrite get_merge_stack, decide_False by done. done. }
    exists e. split_and!; [done..|]. intros Hnd. apply Hs. by inversion Hnd.
Qed.

(** Every stack score in the map is that of a stack hit, or was there. *)
Lemma stack_loop_stack d S k e :
  Py.get k (foldl merge_stack d S) = Some e ->
  (exists e0, Py.get k d = Some e0 /\ stack e = stack e0)
  \/ (exists r, r ∈ S /\ stack e = r_score r).
Proof.
  revert d. induction S as [|r S IH]; intros d He; [left; eauto|]. cbn in He.
  destruct (IH _ He) as [(e0 & He0 & Hs)|(r' & Hr' & Hs)].
  - rewrite get_merge_stack in He0. destruct (decide (r_id r = k)).
    + right. exists r. split; [left|]. injection He0 as <-.
      rewrite Hs. by destruct (Py.get k d).
    + left. eauto.
  - right. exists r'. split; [by right|done].
Qed.

End MergeFacts.

(** ** The search: claims C1 to C4 *)

Module SearchProps.
Import Float64 Float64Facts VectorStore PyFacts MergeFacts SearchSpec.

(** *** The ranking loop *)

Lemma omap_filter_fmap {A B} (p : A -> bool) (g : A -> B) (l : list A) :
  omap (fun x => if p x then Some (g x) else None) l = g <$> List.filter p l.
Proof.
  induction l as [|x l IH]; [done|]. cbn. destruct (p x); cbn; by rewrite IH.
Qed.

Lemma rank_filter wp ws ms d :
  rank wp ws ms d = to_result wp ws <$> List.filter (passes wp ws ms) (Py.items d).
Proof. unfold rank. apply (omap_filter_fmap (passes wp ws ms) (to_result wp ws)). Qed.

Lemma elem_of_rank wp ws ms d r :
  r ∈ rank wp ws ms d <->
  exists it, it ∈ Py.items d /\ passes wp ws ms it = true /\ r = to_result wp ws it.
Proof.
  rewrite rank_filter, list_elem_of_fmap. split.
  - intros (it & -> & Hit). apply list_elem_of_In, filter_In in Hit as [Hit Hp].
    exists it. by rewrite list_elem_of_In.
  - intros (it & Hit & Hp & ->). exists it. split; [done|].
    apply list_elem_of_In, filter_In. by rewrite <- list_elem_of_In.
Qed.

Lemma is_nan_ord x : is_nan x = false <-> is_Some (ord x).
Proof.
  unfold is_nan. rewrite eqb_ord. destruct (ord x) as [a|].
  - rewrite Z.eqb_refl. split; [eauto|done].
  - split; [done|]. by intros [? ?].
Qed.

Lemma ge_not_nan x y : Py.ge x y = true -> is_nan x = false.
Proof.
  rewrite ge_ord, is_nan_ord. destruct (ord x); [eauto|done].
Qed.

(** No score that passed the filter is a NaN. *)
Lemma rank_not_nan wp ws ms d :
  Forall (fun r => is_nan (sr_score r) = false) (rank wp ws ms d).
Proof.
  apply Forall_forall. intros r (it & _ & Hp & ->)%elem_of_rank.
  by apply ge_not_nan in Hp.
Qed.

Lemma elem_of_slice_to {A} (l : list A) stop x : x ∈ Py.slice_to l stop -> x ∈ l.
Proof. destruct (slice_to_prefix l stop) as [n ->]. apply subseteq_take. Qed.

Lemma StronglySorted_take {A} (R : A -> A -> Prop) n (l : list A) :
  StronglySorted R l -> StronglySorted R (take n l).
Proof.
  intros H. rewrite <- (take_drop n l) in H.
  by apply StronglySorted_app_1_l in H.
Qed.

Section claims.

Variable client_search : string -> string * list float -> Z -> list ScoredPoint.

#[local] Abbreviation purpose_results := (purpose_results client_search).
#[local] Abbreviation stack_results := (stack_results client_search).
#[local] Abbreviation merged := (merged client_search).
#[local] Abbreviation search_similar := (search_similar client_search).

(** A key with a value is an item of the merged dictionary. *)
Ltac item_of_merge P S :=
  apply elem_of_items; [apply (wf_merge P S)|try done].

Lemma elem_of_merged_items pv sv limit k e :
  (k, e) ∈ Py.items (merged pv sv limit) <-> Py.get k (merged pv sv limit) = Some e.
Proof. apply elem_of_items, wf_merge. Qed.

(** C1: in the merge of [search_similar], every hit of either query is a
    key of the candidate map; a hit of the purpose query whose id the stack
    query did not return has stack score [0.0], and a hit of the stack query
    whose id the purpose query did not return has purpose score [0.0]; the
    hit's own score and payload are kept (the ids within one result list
    being distinct). *)
Theorem merge_keeps_single_space_candidates pv sv limit :
  let P := purpose_results pv limit in
  let S := stack_results sv limit in
  let scores := Py.items (merged pv sv limit) in
  (forall r, r ∈ P \/ r ∈ S -> exists e, (r_id r, e) ∈ scores)
  /\ (forall r, r ∈ P -> r_id r ∉ r_id <$> S ->
        exists e, (r_id r, e) ∈ scores /\ stack e = 0%float
          /\ (NoDup (r_id <$> P) ->
              purpose e = r_score r /\ payload e = r_payload r))
  /\ (forall r, r ∈ S -> r_id r ∉ r_id <$> P ->
        exists e, (r_id r, e) ∈ scores /\ purpose e = 0%float
          /\ (NoDup (r_id <$> S) ->
              stack e = r_score r /\ payload e = r_payload r)).
Proof.
  intros P S scores. subst scores. unfold VectorStore.merged, merge.
  fold P S. split_and!.
  - intros r [HP|HS].
    + destruct (purpose_loop_hit Py.empty P r HP) as (e & He & _).
      destruct (stack_loop_keeps _ S _ _ He) as (e' & He' & _).
      exists e'. item_of_merge P S.
    + destruct (Py.get (r_id r) (foldl merge_purpose Py.empty P)) as [e|] eqn:E.
      * destruct (stack_loop_keeps _ S _ _ E) as (e' & He' & _).
        exists e'. item_of_merge P S.
      * destruct (stack_loop_new _ S r HS E) as (e' & He' & _).
        exists e'. item_of_merge P S.
  - intros r HP HS.
    destruct (purpose_loop_hit Py.empty P r HP) as (e & He & Hz & Hnd).
    exists e. split_and!; [|done..].
    item_of_merge P S. unfold merge. by rewrite stack_loop_other.
  - intros r HS HP.
    destruct (stack_loop_new (foldl merge_purpose Py.empty P) S r HS)
      as (e & He & Hz & Hnd).
    { rewrite purpose_loop_other by done. unfold Py.get. cbn. apply lookup_empty. }
    exists e. split_and!; [|done..]. item_of_merge P S.
Qed.

Lemma merged_stack_finite pv sv limit k e :
  (forall r, r ∈ stack_results sv limit -> is_finite (r_score r) = true) ->
  (k, e) ∈ Py.items (merged pv sv limit) -> is_finite (stack e) = true.
Proof.
  intros Hfin Hin. apply elem_of_merged_items in Hin.
  apply stack_loop_stack in Hin as [(e0 & He0 & ->)|(r & Hr & ->)]; [|auto].
  by rewrite (purpose_loop_stack_zero _ _ _ He0).
Qed.

(** At weights [1.0] and [0.0] a candidate passes [min_score] [0.0]
    exactly when its purpose score is at least zero and its stack score is
    a finite number. *)
Lemma passes_degenerate (it : Z * Scores) :
  passes 1 0 0 it = (0 <=? purpose it.2)%float && is_finite (stack it.2).
Proof.
  unfold passes, final_score. rewrite ge_ord, leb_ord.
  change (ord 0) with (Some 0%Z).
  destruct (is_finite (stack it.2)) eqn:E.
  - rewrite ord_degenerate, andb_true_r by done.
    by destruct (ord (purpose it.2)).
  - by rewrite ord_not_finite, andb_false_r.
Qed.

(** C2: every result of [search_similar] carries the score
    [w_purpose * purpose + w_stack * stack] of its merged candidate; and
    with weights [1.0] and [0.0] and [min_score] [0.0] the results are the
    candidates this filter keeps (purpose score at least zero, stack score
    finite) in the order of their purpose scores alone: they are the first
    [limit] entries of every list that holds the kept candidates by
    descending purpose score with the candidates of equal purpose score in
    merge order, and such a list exists.  When the store reports finite
    stack scores, as cosine similarities are, the kept candidates are
    those of purpose score at least zero. *)
Theorem weighted_score_is_linear_and_degenerates pv sv limit :
  let candidates := Py.items (merged pv sv limit) in
  let kept :=
    List.filter
      (fun it : Z * Scores => (0 <=? purpose it.2)%float && is_finite (stack it.2))
      candidates in
  (forall w_purpose w_stack min_score r,
     r ∈ search_similar pv sv w_purpose w_stack limit min_score ->
     exists e, (sr_id r, e) ∈ candidates
       /\ sr_score r = (w_purpose * purpose e + w_stack * stack e)%float
       /\ sr_payload r = payload e)
  /\ (exists ordered, by_purpose_alone kept ordered)
  /\ (forall ordered, by_purpose_alone kept ordered ->
        search_similar pv sv 1 0 limit 0 = to_result 1 0 <$> Py.slice_to ordered limit
        /\ sr_id <$> search_similar pv sv 1 0 limit 0 = (Py.slice_to ordered limit).*1)
  /\ ((forall r, r ∈ stack_results sv limit -> is_finite (r_score r) = true) ->
      kept = List.filter (fun it : Z * Scores => (0 <=? purpose it.2)%float) candidates).
Proof.
  intros candidates kept.
  set (key := fun it : Z * Scores => purpose it.2).
  assert (Forall (fun it => is_nan (key it) = false) kept) as Hnan.
  { apply Forall_forall. intros it Hit%list_elem_of_In%filter_In.
    destruct Hit as [_ [Hp _]%andb_prop]. apply is_nan_ord.
    rewrite leb_ord in Hp. subst key. cbn.
    destruct (ord (purpose it.2)); [eauto|]. by destruct (ord 0). }
  assert (by_purpose_alone kept (Py.sort_reverse key kept)) as Hsorted.
  { split_and!.
    - apply sort_reverse_perm.
    - by apply (sort_reverse_sorted key).
    - intros v. apply (sort_reverse_stable key). }
  assert (search_similar pv sv 1 0 limit 0
          = to_result 1 0 <$> Py.slice_to (Py.sort_reverse key kept) limit) as Hout.
  { unfold VectorStore.search_similar.
    rewrite rank_filter, sort_reverse_fmap, <- slice_to_fmap. fold candidates.
    rewrite (List.filter_ext _ _ passes_degenerate). fold kept. do 2 f_equal.
    apply sort_reverse_ext. intros it Hit%list_elem_of_In%filter_In.
    destruct Hit as [_ [_ Hfin]%andb_prop]. cbn. by apply ord_degenerate. }
  split_and!.
  - intros wp ws ms r Hr. unfold VectorStore.search_similar in Hr.
    apply elem_of_slice_to in Hr. rewrite sort_reverse_perm in Hr.
    apply elem_of_rank in Hr as ([k e] & Hit & _ & ->). eauto.
  - by exists (Py.sort_reverse key kept).
  - intros ordered (Hperm & Hdesc & Hstable).
    assert (ordered = Py.sort_reverse key kept) as ->.
    { apply (descending_stable_unique key); [|by rewrite sort_reverse_perm|done| |].
      - by rewrite Hperm.
      - by apply (sort_reverse_sorted key).
      - intros v. rewrite (sort_reverse_stable key). apply Hstable. }
    split; [done|]. rewrite Hout, <- list_fmap_compose. done.
  - intros Hfin. subst kept. apply List.filter_ext_in.
    intros [k e] Hit%list_elem_of_In. cbn [snd].
    by rewrite (merged_stack_finite _ _ _ _ _ Hfin Hit), andb_true_r.
Qed.

(** C3, as the code has it: the results descend by score; they are the
    first [limit] entries of a rearrangement of the candidates that passed
    the filter in which the candidates of any one score keep the order the
    merge gave them (no tie is broken by stars or by identifier); and they
    are at most [limit] many. *)
Theorem results_descend_stably_and_are_truncated pv sv w_purpose w_stack limit min_score :
  let ranked := rank w_purpose w_stack min_score (merged pv sv limit) in
  let out := search_similar pv sv w_purpose w_stack limit min_score in
  StronglySorted (Py.desc sr_score) out
  /\ (exists sorted,
        out = Py.slice_to sorted limit
        /\ sorted ≡ₚ ranked
        /\ StronglySorted (Py.desc sr_score) sorted
        /\ forall v, List.filter (fun r => (sr_score r =? v)%float) sorted
                     = List.filter (fun r => (sr_score r =? v)%float) ranked)
  /\ ((0 <= limit)%Z -> length out <= Z.to_nat limit).
Proof.
  intros ranked out.
  assert (StronglySorted (Py.desc sr_score) (Py.sort_reverse sr_score ranked)) as Hs
    by apply sort_reverse_sorted, rank_not_nan.
  split_and!.
  - subst out. unfold VectorStore.search_similar. fold ranked.
    destruct (slice_to_prefix (Py.sort_reverse sr_score ranked) limit) as [n ->].
    by apply StronglySorted_take.
  - exists (Py.sort_reverse sr_score ranked). split_and!; [done| |done|].
    + apply sort_reverse_perm.
    + intros v. apply sort_reverse_stable.
  - intros Hl. by apply slice_to_length.
Qed.

(** C4, as the code has it: the results are the first [limit] entries of a
    list that holds exactly the merged candidates whose weighted score is
    at least [min_score], each with that score and its payload;
    [search_similar] takes no query identifier and excludes none. *)
Theorem results_are_the_candidates_at_min_score pv sv w_purpose w_stack limit min_score :
  (exists full,
    search_similar pv sv w_purpose w_stack limit min_score = Py.slice_to full limit
    /\ forall r, r ∈ full <->
         exists k e, (k, e) ∈ Py.items (merged pv sv limit)
           /\ Py.ge (final_score w_purpose w_stack e) min_score = true
           /\ r = {| sr_id := k; sr_score := final_score w_purpose w_stack e;
                     sr_payload := payload e |})
  /\ (forall e, purpose e = 0.9%float -> stack e = 0.2%float ->
        final_score 0.7 0.3 e = 0.69%float
        /\ Py.ge (final_score 0.7 0.3 e) 0.3 = true
        /\ Py.ge (final_score 0.7 0.3 e) 0.7 = false).
Proof.
  split.
  - exists (Py.sort_reverse sr_score
              (rank w_purpose w_stack min_score (merged pv sv limit))).
    split; [done|]. intros r. rewrite sort_reverse_perm, elem_of_rank. split.
    + intros ([k e] & Hit & Hp & ->). by exists k, e.
    + intros (k & e & Hit & Hp & ->). by exists (k, e).
  - intros e Hp Hs. unfold final_score. rewrite Hp, Hs. by vm_compute.
Qed.

End claims.

(** C1 on the store [two_spaces]: candidate 1, which only the purpose query
    returns, is in the map with stack score [0.0], its purpose score and
    its payload. *)
Lemma merge_keeps_single_space_candidates_witness :
  exists e, (1%Z, e) ∈ Py.items (merged Fixtures.two_spaces [] [] 20)
    /\ stack e = 0%float /\ purpose e = 0.9%float
    /\ payload e = Fixtures.repo "a/one" 10.
Proof.
  destruct (merge_keeps_single_space_candidates Fixtures.two_spaces [] [] 20)
    as (_ & H & _).
  destruct (H (Fixtures.hit 1 0.9 (Fixtures.repo "a/one" 10)))
    as (e & He & Hs & Hnd).
  - vm_compute. left.
  - refine (bool_decide_unpack _ _). vm_compute. exact I.
  - exists e. destruct Hnd as [Hp Hpl].
    + refine (bool_decide_unpack _ _). vm_compute. exact I.
    + split_and!; assumption.
Defined.

(** C2 on the store [unordered], whose stack scores are finite: with
    weights [1.0] and [0.0] the search returns candidates 2, 1 and 3, the
    order of their purpose scores 0.9, 0.2 and 0.0, where the merge had
    them as 1, 2, 3. *)
Lemma weighted_score_is_linear_and_degenerates_witness :
  (exists ordered,
     by_purpose_alone
       (List.filter (fun it : Z * Scores => (0 <=? purpose it.2)%float)
          (Py.items (merged Fixtures.unordered [] [] 20))) ordered
     /\ sr_id <$> search_similar Fixtures.unordered [] [] 1 0 20 0
        = (Py.slice_to ordered 20).*1)
  /\ sr_id <$> search_similar Fixtures.unordered [] [] 1 0 20 0 = [2; 1; 3]%Z
  /\ (Py.items (merged Fixtures.unordered [] [] 20)).*1 = [1; 2; 3]%Z.
Proof.
  split; [|split; vm_compute; reflexivity].
  destruct (weighted_score_is_linear_and_degenerates Fixtures.unordered [] [] 20)
    as (_ & [ordered Ho] & Hall & Hkept).
  rewrite <- Hkept.
  - exists ordered. split; [exact Ho|]. apply (Hall ordered Ho).
  - apply Forall_forall. vm_compute. repeat constructor.
Defined.

(** The statement C3 makes of the code fails: on the store [tied] the two
    results have one score, and the one with fewer stars and the higher
    identifier comes first. *)
Lemma ties_are_not_broken_by_stars_or_id :
  ~ (forall client pv sv w_purpose w_stack limit min_score,
       Sorted spec_precedes
         (search_similar client pv sv w_purpose w_stack limit min_score)).
Proof.
  intros H. specialize (H Fixtures.tied [] [] 0.7%float 0.3%float 20%Z 0.3%float).
  assert (search_similar Fixtures.tied [] [] 0.7 0.3 20 0.3
          = [ {| sr_id := 2; sr_score := 0.35;
                 sr_payload := Fixtures.repo "few/stars" 10 |};
              {| sr_id := 1; sr_score := 0.35;
                 sr_payload := Fixtures.repo "many/stars" 500 |} ]) as E
    by (vm_compute; reflexivity).
  rewrite E in H. apply Sorted_inv in H as [_ H]. apply HdRel_inv in H.
  destruct H as [H|[_ [H|[H _]]]]; cbn in H; [by vm_compute in H|lia|lia].
Qed.

(** C3 on the store [two_spaces], with the limit 2. *)
Lemma results_descend_stably_and_are_truncated_witness :
  length (search_similar Fixtures.two_spaces [] [] 0.7 0.3 2 0.3) <= 2
  /\ sr_id <$> search_similar Fixtures.two_spaces [] [] 0.7 0.3 2 0.3 = [2; 1]%Z.
Proof.
  split; [|vm_compute; reflexivity].
  apply (results_descend_stably_and_are_truncated Fixtures.two_spaces [] []
           0.7%float 0.3%float 2%Z 0.3%float).
  lia.
Defined.

(** The statement C4 makes of the code fails: the store holds the query
    repository, the search returns it. *)
Lemma query_repository_is_not_excluded :
  ~ (forall client query pv sv w_purpose w_stack limit min_score r,
       r ∈ search_similar client pv sv w_purpose w_stack limit min_score ->
       sr_id r <> query).
Proof.
  intros H.
  apply (H Fixtures.with_query_repo Fixtures.query_id [] [] 0.7%float 0.3%float
           20%Z 0.3%float
           {| sr_id := 42; sr_score := 1; sr_payload := Fixtures.repo "owner/repo" 5 |});
    [|reflexivity].
  vm_compute. left.
Qed.

(** C4 on the store [scenario]: purpose 0.9 and stack 0.2 at weights
    0.7/0.3 give 0.69, kept at [min_score] 0.3 and dropped at 0.7. *)
Lemma results_are_the_candidates_at_min_score_witness :
  final_score 0.7 0.3
    {| purpose := 0.9; stack := 0.2; payload := Fixtures.repo "s/cenario" 1 |}
    = 0.69%float
  /\ sr_score <$> search_similar Fixtures.scenario [] [] 0.7 0.3 20 0.3 = [0.69%float]
  /\ search_similar Fixtures.scenario [] [] 0.7 0.3 20 0.7 = [].
Proof.
  split; [|split; vm_compute; reflexivity].
  destruct (results_are_the_candidates_at_min_score Fixtures.scenario [] []
              0.7%float 0.3%float 20%Z 0.3%float) as [_ H].
  apply (H {| purpose := 0.9; stack := 0.2; payload := Fixtures.repo "s/cenario" 1 |});
    reflexivity.
Defined.

End SearchProps.

(** ** The weight slider and the request of the first search: C7, C8 *)

Module WeightProps.
Import Js.

Section app.

Variable VITE_API_URL : option jsstring.
Variable JSON_stringify : value -> jsstring.
Variable Number_toString : float -> jsstring.
Variable null_property_error : Error.
Variable not_primitive_error : Error.
Variable fetch : Client.Request -> outcome Client.Response.

#[local] Abbreviation handleSearch :=
  (App.handleSearch VITE_API_URL JSON_stringify Number_toString
     null_property_error not_primitive_error fetch).
#[local] Abbreviation search_request :=
  (Client.search_request VITE_API_URL JSON_stringify).

(** [handleSearch] issues exactly the search request for the parameters it
    builds from the state. *)
Lemma handleSearch_sends url st :
  (handleSearch url st).1 = [search_request (App.search_params url st)].
Proof. reflexivity. Qed.

(** C7: the purpose weight starts at 0.7, and a search made before the
    slider is touched sends [weight_purpose = 0.7] and [weight_stack = 0.3],
    the latter computed as [Math.round((1 - 0.7) * 100) / 100]; limit 20
    and min_stars 0 go with them. *)
Theorem first_search_sends_default_weights url :
  App.purposeWeight App.initial = 0.7%float
  /\ (Math_round ((1 - 0.7) * 100) / 100)%float = 0.3%float
  /\ (handleSearch url App.initial).1
     = [search_request
          {| Client.repo_url := url;
             Client.weight_purpose := 0.7;
             Client.weight_stack := 0.3;
             Client.limit := 20;
             Client.min_stars := 0 |}].
Proof. split_and!; reflexivity. Qed.

End app.

Lemma all_positions_ok :
  forallb WeightSliders.position_ok (Z.of_nat <$> seq 0 101) = true.
Proof. vm_compute. reflexivity. Qed.

Lemma position_ok_true n : (0 <= n <= 100)%Z -> WeightSliders.position_ok n = true.
Proof.
  intros Hn. pose proof all_positions_ok as H.
  rewrite forallb_forall in H. apply H.
  apply list_elem_of_In, list_elem_of_fmap. exists (Z.to_nat n).
  split; [lia|]. apply elem_of_seq. lia.
Qed.

(** C8: at every slider position [n] from 0 to 100 the purpose weight is
    [n / 100], the stack weight [(100 - n) / 100], the two weights a search
    sends add up to exactly 1, and the two displayed percentages are [n]
    and [100 - n], adding up to 100. *)
Theorem slider_weights_sum_to_one (n : Z) (url : jsstring) (st : App.State) :
  (0 <= n <= 100)%Z ->
  let pw := WeightSliders.onChange n in
  let params := App.search_params url (App.setPurposeWeight pw st) in
  pw = (of_Z n / 100)%float
  /\ WeightSliders.stackWeight pw = (of_Z (100 - n) / 100)%float
  /\ Client.weight_purpose params = pw
  /\ Client.weight_stack params = WeightSliders.stackWeight pw
  /\ (Client.weight_purpose params + Client.weight_stack params)%float = 1%float
  /\ WeightSliders.purposePct pw = of_Z n
  /\ WeightSliders.stackPct pw = of_Z (100 - n)
  /\ (WeightSliders.purposePct pw + WeightSliders.stackPct pw)%float = 100%float.
Proof.
  intros Hn pw params. pose proof (position_ok_true n Hn) as H.
  unfold WeightSliders.position_ok in H. fold pw in H.
  repeat (apply andb_prop in H as [H ?]).
  repeat match goal with
         | E : PrimFloat.Leibniz.eqb _ _ = true |- _ =>
             apply FloatAxioms.Leibniz.eqb_spec in E
         end.
  split_and!; try done.
Qed.

(** C8 at position 37. *)
Lemma slider_weights_sum_to_one_witness :
  (WeightSliders.onChange 37 + WeightSliders.stackWeight (WeightSliders.onChange 37))%float
  = 1%float
  /\ WeightSliders.stackWeight (WeightSliders.onChange 37) = 0.63%float.
Proof.
  destruct (slider_weights_sum_to_one 37 [] App.initial) as (_ & H2 & _ & _ & H5 & _);
    [lia|].
  split; [exact H5|]. rewrite H2. vm_compute. reflexivity.
Defined.

End WeightProps.

(** ** The search form: C9 *)

Module SearchInputProps.
Import Js.

Lemma trimStart_split s :
  exists pre, s = pre ++ trimStart s /\ forallb is_whitespace pre = true.
Proof.
  induction s as [|c s (pre & IH & Hpre)]; [by exists []|]. cbn.
  destruct (is_whitespace c) eqn:Hc.
  - exists (c :: pre). cbn. rewrite Hc, Hpre. split; [by f_equal|done].
  - by exists [].
Qed.

Lemma trimStart_head s :
  trimStart s = [] \/ exists c rest, trimStart s = c :: rest /\ is_whitespace c = false.
Proof.
  induction s as [|c s IH]; [by left|]. cbn.
  destruct (is_whitespace c) eqn:Hc; [done|]. right. eauto.
Qed.

Lemma trimStart_nil s : trimStart s = [] <-> forallb is_whitespace s = true.
Proof.
  induction s as [|c s IH]; [done|]. cbn.
  destruct (is_whitespace c); cbn; [done|]. split; discriminate.
Qed.

Lemma trimStart_app_keep s c t :
  is_whitespace c = false -> trimStart (s ++ c :: t) = trimStart (s ++ [c]) ++ t.
Proof.
  intros Hc. induction s as [|c' s IH]; cbn.
  - by rewrite Hc.
  - destruct (is_whitespace c'); [done|]. cbn. by rewrite <- app_assoc.
Qed.

Lemma forallb_rev {A} (p : A -> bool) l : forallb p (rev l) = forallb p l.
Proof.
  induction l as [|x l IH]; [done|]. cbn.
  rewrite forallb_app, IH. cbn. rewrite andb_true_r. apply andb_comm.
Qed.

Lemma trimEnd_split s :
  exists post, s = trimEnd s ++ post /\ forallb is_whitespace post = true.
Proof.
  unfold trimEnd. destruct (trimStart_split (rev s)) as (pre & E & Hpre).
  exists (rev pre). rewrite forallb_rev. split; [|done].
  rewrite <- rev_app_distr, <- E. by rewrite rev_involutive.
Qed.

Lemma trimEnd_last s :
  trimEnd s = [] \/ exists c init, trimEnd s = init ++ [c] /\ is_whitespace c = false.
Proof.
  unfold trimEnd. destruct (trimStart_head (rev s)) as [->|(c & rest & -> & Hc)];
    [by left|].
  right. exists c, (rev rest). done.
Qed.

Lemma trimEnd_nil s : trimEnd s = [] <-> forallb is_whitespace s = true.
Proof.
  unfold trimEnd. rewrite <- (forallb_rev _ s), <- trimStart_nil.
  split; [|by intros ->].
  intros H. apply (f_equal (@rev _)) in H. by rewrite rev_involutive in H.
Qed.

(** Trimming the end keeps a first code unit that is not white space. *)
Lemma trimEnd_head c rest :
  is_whitespace c = false -> exists rest', trimEnd (c :: rest) = c :: rest'.
Proof.
  intros Hc. unfold trimEnd. cbn [rev].
  rewrite (trimStart_app_keep (rev rest) c [] Hc), app_nil_r.
  destruct (trimStart_split (rev rest ++ [c])) as (pre & E & Hpre).
  destruct (trimStart_head (rev rest ++ [c])) as [Hnil|(c' & t & Ht & Hc')].
  - rewrite Hnil, app_nil_r in E. rewrite <- E, forallb_app in Hpre. cbn in Hpre.
    rewrite Hc, andb_false_r in Hpre. discriminate.
  - assert (rev (rev rest ++ [c]) = c :: rest) as Hrev
      by (rewrite rev_app_distr, rev_involutive; done).
    rewrite E in Hrev at 1. rewrite rev_app_distr in Hrev.
    destruct (rev (trimStart (rev rest ++ [c]))) as [|c0 rest'] eqn:Hr.
    + apply (f_equal (@rev _)) in Hr. rewrite rev_involutive, Ht in Hr. discriminate.
    + cbn in Hrev. injection Hrev as -> _. eauto.
Qed.

Lemma trim_nil s : trim s = [] <-> forallb is_whitespace s = true.
Proof.
  unfold trim. rewrite trimEnd_nil.
  destruct (trimStart_split s) as (pre & E & Hpre).
  rewrite E at 2. rewrite forallb_app, Hpre. done.
Qed.

Lemma existsb_not_forallb {A} (p : A -> bool) l :
  existsb (fun x => negb (p x)) l = negb (forallb p l).
Proof.
  induction l as [|x l IH]; [done|]. cbn. rewrite IH. by destruct (p x).
Qed.

(** C9: when the input holds a code unit that is not white space,
    submitting calls [onSearch] once, with the input stripped of its
    leading and trailing white space (what is passed starts and ends with a
    code unit that is not white space, and the input is it between two runs
    of white space); when the input is empty or all white space, no call
    is made and the button is disabled. *)
Theorem submit_calls_onSearch_with_trimmed_input (url : jsstring) :
  (existsb (fun c => negb (is_whitespace c)) url = true ->
     SearchInput.handleSubmit url = [trim url]
     /\ (exists pre post, url = pre ++ trim url ++ post
           /\ forallb is_whitespace pre = true
           /\ forallb is_whitespace post = true)
     /\ (exists c rest, trim url = c :: rest /\ is_whitespace c = false)
     /\ (exists c init, trim url = init ++ [c] /\ is_whitespace c = false))
  /\ (forallb is_whitespace url = true ->
        SearchInput.handleSubmit url = []
        /\ forall isLoading, SearchInput.button_disabled isLoading url = true).
Proof.
  split.
  - rewrite existsb_not_forallb, negb_true_iff. intros Hne.
    assert (trim url <> []) as Hnil by (rewrite trim_nil; congruence).
    split_and!.
    + unfold SearchInput.handleSubmit. cbn. by rewrite bool_decide_eq_false_2.
    + destruct (trimStart_split url) as (pre & E & Hpre).
      destruct (trimEnd_split (trimStart url)) as (post & E' & Hpost).
      exists pre, post. split_and!; [|done..].
      unfold trim. by rewrite <- E', <- E.
    + destruct (trimStart_head url) as [Hs|(c & rest & Hs & Hc)].
      { exfalso. apply Hnil. unfold trim. by rewrite Hs. }
      unfold trim. rewrite Hs. destruct (trimEnd_head c rest Hc) as [rest' ->]. eauto.
    + destruct (trimEnd_last (trimStart url)) as [Hs|H]; [by exfalso|done].
  - intros Hall. apply trim_nil in Hall.
    unfold SearchInput.handleSubmit, SearchInput.button_disabled. rewrite Hall. cbn.
    split; [done|]. intros b. apply orb_true_r.
Qed.

(** C9 on the input of the component's test, and on three blanks. *)
Lemma submit_calls_onSearch_with_trimmed_input_witness :
  SearchInput.handleSubmit (lit "  facebook/react  ") = [lit "facebook/react"]
  /\ SearchInput.handleSubmit (lit "   ") = []
  /\ SearchInput.button_disabled false (lit "   ") = true.
Proof.
  split.
  - destruct (submit_calls_onSearch_with_trimmed_input (lit "  facebook/react  "))
      as [H _].
    destruct H as [-> _]; [vm_compute; reflexivity|]. vm_compute. reflexivity.
  - destruct (submit_calls_onSearch_with_trimmed_input (lit "   ")) as [_ H].
    destruct H as [-> H]; [vm_compute; reflexivity|]. split; [reflexivity|apply H].
Defined.

End SearchInputProps.

(** ** The theme hook: C10 *)

Module UseThemeProps.
Import Js UseTheme.

Lemma getInitialTheme_valid storage prefers_dark :
  valid_theme (getInitialTheme storage prefers_dark).
Proof.
  unfold getInitialTheme, valid_theme.
  destruct (storage !! STORAGE_KEY) as [saved|]; [|destruct prefers_dark; auto].
  destruct (decide (saved = lit "light")) as [->|Hl]; [by left|].
  destruct (decide (saved = lit "dark")) as [->|Hd]; [by right|].
  rewrite !bool_decide_eq_false_2 by done. cbn. destruct prefers_dark; auto.
Qed.

Lemma toggleTheme_valid st : valid_theme (theme (toggleTheme st)).
Proof. unfold toggleTheme, valid_theme. cbn. case_bool_decide; auto. Qed.

Lemma reachable_valid st : reachable st -> valid_theme (theme st).
Proof.
  induction 1; [apply getInitialTheme_valid|apply toggleTheme_valid].
Qed.

(** C10: the hook starts from the saved theme when that is ['light'] or
    ['dark'] and from the system preference otherwise; in every state it
    can reach the theme is ['light'] or ['dark'], a toggle changes it to
    the other of the two and writes the new theme under
    ['reporadar-theme'] (leaving other keys alone), and two toggles restore
    it. *)
Theorem theme_is_binary_and_toggle_is_an_involution :
  (forall (storage : gmap jsstring jsstring) (prefers_dark : bool),
     let system := if prefers_dark then lit "dark" else lit "light" in
     getInitialTheme storage prefers_dark =
       match storage !! STORAGE_KEY with
       | Some saved =>
           if decide (saved = lit "light" \/ saved = lit "dark") then saved else system
       | None => system
       end)
  /\ (forall st, reachable st ->
        (theme st = lit "light" \/ theme st = lit "dark")
        /\ theme (toggleTheme st) <> theme st
        /\ theme (toggleTheme (toggleTheme st)) = theme st
        /\ localStorage (toggleTheme st) !! STORAGE_KEY = Some (theme (toggleTheme st))
        /\ (forall k, k <> STORAGE_KEY ->
              localStorage (toggleTheme st) !! k = localStorage st !! k)).
Proof.
  split.
  - intros storage pd system. unfold getInitialTheme. fold system.
    destruct (storage !! STORAGE_KEY) as [saved|]; [|done].
    destruct (decide (saved = lit "light" \/ saved = lit "dark")) as [[->| ->]|Hn];
      [done..|].
    rewrite !bool_decide_eq_false_2; [done|tauto..].
  - intros st Hst. pose proof (reachable_valid st Hst) as Hv.
    split_and!; [done| | | |].
    + destruct Hv as [E|E]; unfold toggleTheme; cbn; rewrite E; by vm_compute.
    + destruct Hv as [E|E]; unfold toggleTheme; cbn; rewrite E; by vm_compute.
    + unfold toggleTheme. cbn. apply lookup_insert_eq.
    + intros k Hk. unfold toggleTheme. cbn. by apply lookup_insert_ne.
Qed.

(** C10 on a browser that stored an unknown value and prefers dark. *)
Lemma theme_is_binary_and_toggle_is_an_involution_witness :
  let st := mount (<[STORAGE_KEY := lit "blue"]> ∅) true in
  theme st = lit "dark"
  /\ theme (toggleTheme st) = lit "light"
  /\ theme (toggleTheme (toggleTheme st)) = theme st
  /\ localStorage (toggleTheme st) !! STORAGE_KEY = Some (lit "light").
Proof.
  intros st.
  destruct theme_is_binary_and_toggle_is_an_involution as [Hinit Hreach].
  destruct (Hreach st (reach_mount _ _)) as (_ & _ & H2 & H3 & _).
  split_and!; [vm_compute; reflexivity|vm_compute; reflexivity|exact H2|].
  rewrite H3. vm_compute. reflexivity.
Defined.

End UseThemeProps.

(** ** The client and the page: C5, C6 *)

Module ClientProps.
Import Js.

Section client.

Variable VITE_API_URL : option jsstring.
Variable JSON_stringify : value -> jsstring.
Variable Number_toString : float -> jsstring.
Variable null_property_error : Error.
Variable not_primitive_error : Error.
Variable fetch : Client.Request -> outcome Client.Response.

#[local] Abbreviation API_BASE := (Client.API_BASE VITE_API_URL).
#[local] Abbreviation search_request :=
  (Client.search_request VITE_API_URL JSON_stringify).
#[local] Abbreviation searchRepos :=
  (Client.searchRepos VITE_API_URL JSON_stringify Number_toString
     null_property_error not_primitive_error fetch).
#[local] Abbreviation handleSearch :=
  (App.handleSearch VITE_API_URL JSON_stringify Number_toString
     null_property_error not_primitive_error fetch).

(** The outcome of [searchRepos] on a response that is not ok. *)
Lemma searchRepos_not_ok params res :
  fetch (search_request params) = Resolved res -> Client.ok res = false ->
  (searchRepos params).2 =
    match Client.json res with
    | Rejected _ => Rejected (ThrownError (Client.new_Error (lit "Search failed")))
    | Resolved body =>
        match get_prop body (lit "detail") with
        | None => Rejected (ThrownError null_property_error)
        | Some detail =>
            if truthy detail then
              match ToString Number_toString detail with
              | Some msg => Rejected (ThrownError (Client.new_Error msg))
              | None => Rejected (ThrownError not_primitive_error)
              end
            else Rejected (ThrownError (Client.new_Error (lit "Search failed")))
        end
    end.
Proof.
  intros Hf Hok. unfold Client.searchRepos, Client.fetchWithTimeout. cbn [fst snd].
  rewrite Hf, Hok. cbn [negb]. destruct (Client.json res) as [body|x]; [|done].
  destruct (get_prop body (lit "detail")) as [detail|]; [|done].
  unfold Client.throw_new_Error. destruct (truthy detail); [|done].
  by destruct (ToString Number_toString detail).
Qed.

(** The state [handleSearch] leaves when [searchRepos] rejects. *)
Lemma handleSearch_rejected url st e :
  (searchRepos (App.search_params url st)).2 = Rejected e ->
  (handleSearch url st).2
  = App.setLoading false
      (App.setError (Some (App.catch_message e)) (App.search_started st)).
Proof.
  intros He. unfold App.handleSearch.
  change (App.search_params url (App.search_started st))
    with (App.search_params url st).
  destruct (searchRepos (App.search_params url st)) as [sent settled].
  cbn [snd] in He. by subst settled.
Qed.

(** What [App] returns for a state in which a search has failed: the
    banner when the message is not empty, no results list; nothing at all
    when the footer's count cannot be rendered. *)
Lemma render_failed st msg :
  App.render (App.setLoading false
                (App.setError (Some msg) (App.search_started st)))
  = if toLocaleString_returns (App.indexedCount st)
    then Some {| App.loading_state := false;
                 App.alert_banner := if bool_decide (msg = []) then None else Some msg;
                 App.results_list := None |}
    else None.
Proof.
  unfold App.render. cbn.
  destruct (toLocaleString_returns (App.indexedCount st)); [|done].
  by destruct (bool_decide (msg = [])).
Qed.

(** C6: [searchRepos] issues one request, a POST to [/api/search] under
    the API base with a JSON content type, whose body is the
    serialisation of an object with exactly the five fields of the
    request; on an ok response it settles as [res.json()] does, so for a
    body that is a search response it resolves with a value whose
    [query_repo], [results], [indexed_count] and [search_time_ms] are those
    of the response, each result carrying its three scores. *)
Theorem searchRepos_posts_and_returns_parsed_body (params : Client.SearchRequest) :
  let req := search_request params in
  (searchRepos params).1 = [req]
  /\ Client.req_url req = API_BASE ++ lit "/api/search"
  /\ Client.req_method req = Some (lit "POST")
  /\ Client.req_headers req = [(lit "Content-Type", lit "application/json")]
  /\ Client.req_body req
     = Some (JSON_stringify
               (Obj [ (lit "repo_url", Str (Client.repo_url params));
                      (lit "weight_purpose", Num (Client.weight_purpose params));
                      (lit "weight_stack", Num (Client.weight_stack params));
                      (lit "limit", Num (Client.limit params));
                      (lit "min_stars", Num (Client.min_stars params)) ]))
  /\ (forall res, fetch req = Resolved res -> Client.ok res = true ->
        (searchRepos params).2 = Client.json res)
  /\ (forall res r, fetch req = Resolved res -> Client.ok res = true ->
        Client.json res = Resolved (Client.SearchResponse_value r) ->
        exists v, (searchRepos params).2 = Resolved v
          /\ get_prop v (lit "query_repo")
             = Some (Client.QueryRepo_value (Client.query_repo r))
          /\ get_prop v (lit "results")
             = Some (Arr (Client.SearchResultItem_value <$> Client.results r))
          /\ get_prop v (lit "indexed_count") = Some (Num (Client.indexed_count r))
          /\ get_prop v (lit "search_time_ms") = Some (Num (Client.search_time_ms r))
          /\ forall it, it ∈ Client.results r ->
               let iv := Client.SearchResultItem_value it in
               get_prop iv (lit "similarity_score")
                 = Some (Num (Client.similarity_score it))
               /\ get_prop iv (lit "purpose_score") = Some (Num (Client.purpose_score it))
               /\ get_prop iv (lit "stack_score") = Some (Num (Client.stack_score it))
               /\ get_prop iv (lit "full_name") = Some (Str (Client.full_name it))
               /\ get_prop iv (lit "stars") = Some (Num (Client.stars it))).
Proof.
  intros req.
  assert (forall res, fetch req = Resolved res -> Client.ok res = true ->
            (searchRepos params).2 = Client.json res) as Hok.
  { intros res Hf Hr. unfold Client.searchRepos, Client.fetchWithTimeout. cbn.
    fold req. by rewrite Hf, Hr. }
  split_and!; [done..|].
  intros res r Hf Hr Hj. exists (Client.SearchResponse_value r).
  rewrite (Hok res Hf Hr), Hj. split_and!; [done..|].
  intros it _ iv. by split_and!.
Qed.

End client.

(** C5 at the failing input: a search answered with an error status and
    the body [{"detail": []}].  The array is truthy, so the fallback text
    is not used, and it converts to the empty string: [searchRepos] throws
    an Error with an empty message, [handleSearch] stores the empty string
    as the error, and [App] returns neither a banner nor a results list
    (it returns nothing when the footer's count cannot be rendered).  This
    holds for every runtime, URL and earlier state. *)
Lemma empty_detail_shows_no_banner :
  forall VITE_API_URL JSON_stringify Number_toString null_property_error
         not_primitive_error url st,
    let res := {| Client.ok := false;
                  Client.json := Resolved (Obj [(lit "detail", Arr [])]) |} in
    let fetch := fun _ : Client.Request => Resolved res in
    let st' := (App.handleSearch VITE_API_URL JSON_stringify Number_toString
                  null_property_error not_primitive_error fetch url st).2 in
    (Client.searchRepos VITE_API_URL JSON_stringify Number_toString
       null_property_error not_primitive_error fetch (App.search_params url st)).2
    = Rejected (ThrownError {| name := lit "Error"; message := [] |})
    /\ App.error st' = Some []
    /\ App.searchResult st' = Null
    /\ App.loading st' = false
    /\ App.render st'
       = (if toLocaleString_returns (App.indexedCount st)
          then Some {| App.loading_state := false; App.alert_banner := None;
                       App.results_list := None |}
          else None)
    /\ App.render
         (App.handleSearch VITE_API_URL JSON_stringify Number_toString
            null_property_error not_primitive_error fetch url App.initial).2
       = Some {| App.loading_state := false; App.alert_banner := None;
                 App.results_list := None |}.
Proof.
  intros VITE_API_URL JSON_stringify Number_toString null_property_error
    not_primitive_error url st res fetch st'.
  assert (forall st0,
            (Client.searchRepos VITE_API_URL JSON_stringify Number_toString
               null_property_error not_primitive_error fetch
               (App.search_params url st0)).2
            = Rejected (ThrownError {| name := lit "Error"; message := [] |})) as Hs.
  { intros st0. by rewrite (searchRepos_not_ok _ _ _ _ _ fetch _ res). }
  assert (forall st0,
            (App.handleSearch VITE_API_URL JSON_stringify Number_toString
               null_property_error not_primitive_error fetch url st0).2
            = App.setLoading false
                (App.setError (Some []) (App.search_started st0))) as Hh.
  { intros st0. by rewrite (handleSearch_rejected _ _ _ _ _ _ _ _ _ (Hs st0)). }
  subst st'. rewrite !Hh, !render_failed. by split_and!.
Qed.

(** C6 on the request and the response of the client's own test. *)
Lemma searchRepos_posts_and_returns_parsed_body_witness :
  let r := {| Client.query_repo :=
                {| Client.qr_full_name := lit "test/repo";
                   Client.qr_description := None |};
              Client.results := []; Client.indexed_count := 100;
              Client.search_time_ms := 42 |} in
  let res := {| Client.ok := true;
                Client.json := Resolved (Client.SearchResponse_value r) |} in
  (Client.searchRepos None (fun _ => []) (fun _ => [])
     {| name := lit "TypeError"; message := lit "null has no properties" |}
     {| name := lit "TypeError"; message := lit "not a primitive" |}
     (fun _ => Resolved res)
     {| Client.repo_url := lit "https://github.com/test/repo";
        Client.weight_purpose := 0.7; Client.weight_stack := 0.3;
        Client.limit := 20; Client.min_stars := 0 |}).2
  = Resolved (Client.SearchResponse_value r).
Proof.
  intros r res.
  destruct (searchRepos_posts_and_returns_parsed_body None (fun _ => []) (fun _ => [])
              {| name := lit "TypeError"; message := lit "null has no properties" |}
              {| name := lit "TypeError"; message := lit "not a primitive" |}
              (fun _ => Resolved res)
              {| Client.repo_url := lit "https://github.com/test/repo";
                 Client.weight_purpose := 0.7; Client.weight_stack := 0.3;
                 Client.limit := 20; Client.min_stars := 0 |})
    as (_ & _ & _ & _ & _ & H & _).
  apply (H res); reflexivity.
Defined.

End ClientProps.

(** ** More on the search: both-space candidates, order, thresholds *)

Module SearchMore.
Import Float64 Float64Facts VectorStore PyFacts MergeFacts SearchProps.

(** *** The second loop on a candidate the first loop put in *)

Lemma stack_loop_update d S r e :
  Py.get (r_id r) d = Some e -> r ∈ S -> NoDup (r_id <$> S) ->
  Py.get (r_id r) (foldl merge_stack d S)
  = Some {| purpose := purpose e; stack := r_score r; payload := payload e |}.
Proof.
  revert d e. induction S as [|r' S IH]; intros d e He Hin Hnd;
    [by apply elem_of_nil in Hin|].
  cbn [foldl]. rewrite fmap_cons in Hnd. apply NoDup_cons in Hnd as [Hnot Hnd].
  apply elem_of_cons in Hin as [->|Hin].
  - rewrite stack_loop_other by done.
    by rewrite get_merge_stack, decide_True, He.
  - assert (r_id r' <> r_id r) as Hne.
    { intros Heq. apply Hnot. rewrite Heq. by apply list_elem_of_fmap_2. }
    apply IH; [|done..]. by rewrite get_merge_stack, decide_False.
Qed.

(** *** The order of the keys *)

Lemma keys_setitem_new {V} k (v : V) d :
  Py.wf d -> k ∉ Py.d_keys d -> Py.d_keys (Py.setitem k v d) = Py.d_keys d ++ [k].
Proof.
  intros [_ Hdom] Hk. unfold Py.setitem. cbn.
  destruct (Py.contains k d) eqn:Hc; [|done].
  apply contains_spec, Hdom in Hc. done.
Qed.

Lemma keys_setitem_old {V} k (v : V) d :
  Py.wf d -> k ∈ Py.d_keys d -> Py.d_keys (Py.setitem k v d) = Py.d_keys d.
Proof.
  intros [_ Hdom] Hk. unfold Py.setitem. cbn.
  destruct (Py.contains k d) eqn:Hc; [done|].
  apply Hdom, contains_spec in Hk. congruence.
Qed.

Lemma keys_purpose_loop d P :
  Py.wf d -> NoDup (r_id <$> P) ->
  (forall r, r ∈ P -> r_id r ∉ Py.d_keys d) ->
  Py.d_keys (foldl merge_purpose d P) = Py.d_keys d ++ (r_id <$> P).
Proof.
  revert d. induction P as [|r P IH]; intros d Hwf Hnd Hnew; cbn [foldl].
  - by rewrite app_nil_r.
  - rewrite fmap_cons in Hnd. apply NoDup_cons in Hnd as [Hnot Hnd].
    rewrite IH; [|by apply wf_merge_purpose|done|].
    + unfold merge_purpose. rewrite keys_setitem_new; [|done|apply Hnew; left].
      by rewrite <- app_assoc.
    + intros r' Hr'. unfold merge_purpose.
      rewrite keys_setitem_new; [|done|apply Hnew; left].
      rewrite elem_of_app, list_elem_of_singleton. intros [Hin|Heq].
      * by apply (Hnew r'); [right|].
      * apply Hnot. rewrite <- Heq. by apply list_elem_of_fmap_2.
Qed.

Lemma keys_merge_stack d r :
  Py.wf d ->
  Py.d_keys (merge_stack d r)
  = if decide (r_id r ∈ Py.d_keys d) then Py.d_keys d else Py.d_keys d ++ [r_id r].
Proof.
  intros Hwf. unfold merge_stack. destruct Hwf as [Hnd Hdom].
  destruct (decide (r_id r ∈ Py.d_keys d)) as [Hin|Hin].
  - destruct (Py.get (r_id r) d) eqn:E; by rewrite keys_setitem_old.
  - destruct (Py.get (r_id r) d) eqn:E; [|by rewrite keys_setitem_new].
    exfalso. apply Hin, Hdom. unfold Py.get in E. eauto.
Qed.

Lemma filter_iff_elem {A} (P1 P2 : A -> Prop)
    `{!forall x, Decision (P1 x)} `{!forall x, Decision (P2 x)} (l : list A) :
  (forall x, x ∈ l -> P1 x <-> P2 x) -> filter P1 l = filter P2 l.
Proof.
  intros Hiff. induction l as [|x l IH]; [done|]. rewrite !filter_cons.
  rewrite IH by (intros; apply Hiff; by right).
  assert (P1 x <-> P2 x) as Hx by (apply Hiff; left).
  destruct (decide (P1 x)), (decide (P2 x)); tauto || done.
Qed.

Lemma keys_stack_loop d S :
  Py.wf d -> NoDup (r_id <$> S) ->
  Py.d_keys (foldl merge_stack d S)
  = Py.d_keys d ++ filter (fun k => k ∉ Py.d_keys d) (r_id <$> S).
Proof.
  revert d. induction S as [|r S IH]; intros d Hwf Hnd; cbn [foldl].
  - by rewrite app_nil_r.
  - rewrite fmap_cons in Hnd. apply NoDup_cons in Hnd as [Hnot Hnd].
    rewrite IH; [|by apply wf_merge_stack|done].
    rewrite keys_merge_stack by done. rewrite fmap_cons, filter_cons.
    destruct (decide (r_id r ∈ Py.d_keys d)) as [Hin|Hin].
    + rewrite decide_False by (intros H; by apply H). done.
    + rewrite decide_True by done. rewrite <- app_assoc. cbn. do 2 f_equal.
      apply filter_iff_elem. intros k Hk.
      rewrite elem_of_app, list_elem_of_singleton. split; [tauto|].
      intros Hn [Hd|Heq]; [done|]. subst k. done.
Qed.

(** *** Filtering a descending list *)

Section filter_sorted.
Context {A : Type} (key : A -> float) (p : A -> bool).

Lemma insert_desc_first x l :
  Forall (fun y => (key x <? key y)%float = false) l ->
  Py.insert_desc key x l = x :: l.
Proof.
  destruct l as [|y l]; [done|]. intros [Hy _]%Forall_cons. cbn. by rewrite Hy.
Qed.

Lemma insert_desc_filter x l :
  is_nan (key x) = false -> Forall (fun y => is_nan (key y) = false) l ->
  StronglySorted (Py.desc key) l ->
  List.filter p (Py.insert_desc key x l)
  = if p x then Py.insert_desc key x (List.filter p l) else List.filter p l.
Proof.
  intros Hx Hl Hs. induction Hs as [|y l Hs IH Hy]; cbn.
  - by destruct (p x).
  - apply Forall_cons in Hl as [Hny Hl].
    destruct (key x <? key y)%float eqn:Hlt; cbn.
    + rewrite IH by done. destruct (p x), (p y); cbn; by rewrite ?Hlt.
    + destruct (p x); [|done]. symmetry. apply insert_desc_first.
      apply Forall_forall. intros z Hz.
      assert (Py.desc key y z \/ z = y) as Hyz.
      { destruct (p y).
        - apply elem_of_cons in Hz as [->|Hz]; [by right|left].
          rewrite Forall_forall in Hy. apply Hy.
          apply list_elem_of_In, filter_In in Hz as [Hz _]. by apply list_elem_of_In.
        - left. rewrite Forall_forall in Hy. apply Hy.
          apply list_elem_of_In, filter_In in Hz as [Hz _]. by apply list_elem_of_In. }
      rewrite ltb_ord in Hlt |- *. apply is_nan_ord in Hx as [a Ha].
      apply is_nan_ord in Hny as [b Hb]. rewrite Ha, Hb in Hlt. rewrite Ha.
      destruct Hyz as [Hd| ->]; [|by rewrite Hb].
      unfold Py.desc in Hd. rewrite leb_ord, Hb in Hd.
      destruct (ord (key z)) as [c|]; [|done]. lia.
Qed.

(** Filtering commutes with the stable sort. *)
Lemma sort_reverse_filter l :
  Forall (fun y => is_nan (key y) = false) l ->
  Py.sort_reverse key (List.filter p l) = List.filter p (Py.sort_reverse key l).
Proof.
  induction 1 as [|x l Hx Hl IH]; [done|].
  change (Py.sort_reverse key (x :: l))
    with (Py.insert_desc key x (Py.sort_reverse key l)).
  rewrite insert_desc_filter;
    [|done|by rewrite sort_reverse_perm|by apply sort_reverse_sorted].
  cbn. destruct (p x); [|done]. by rewrite <- IH.
Qed.

(** A test that every element standing before a passing one passes keeps
    a prefix of a descending list. *)
Lemma take_filter_sorted n l :
  (forall x y, Py.desc key x y -> p y = true -> p x = true) ->
  StronglySorted (Py.desc key) l ->
  take n (List.filter p l) = List.filter p (take n l).
Proof.
  intros Hp Hs. revert n. induction Hs as [|x l Hs IH Hx]; intros n.
  - cbn. by rewrite !take_nil.
  - cbn. destruct (p x) eqn:Hpx.
    + destruct n as [|n]; [done|]. cbn. by rewrite Hpx, IH.
    + assert (forall l', l' ⊆ l -> List.filter p l' = []) as Hnone.
      { intros l' Hl'. induction l' as [|y l' IHl']; [done|]. cbn.
        assert (p y = false) as ->.
        { destruct (p y) eqn:Hpy; [|done]. rewrite Forall_forall in Hx.
          rewrite (Hp x y) in Hpx; [done| |done]. apply Hx, Hl'. left. }
        apply IHl'. intros z Hz. apply Hl'. by right. }
      rewrite (Hnone l) by done. rewrite take_nil.
      destruct n as [|n]; [done|]. cbn. rewrite Hpx.
      symmetry. apply Hnone, subseteq_take.
Qed.

End filter_sorted.

Lemma filter_bool_sublist {A} (p : A -> bool) (l : list A) :
  List.filter p l `sublist_of` l.
Proof.
  induction l as [|x l IH]; [done|]. cbn.
  destruct (p x); [by apply sublist_skip|by apply sublist_cons].
Qed.

Lemma fmap_id_to_result wp ws (l : list (Z * Scores)) :
  sr_id <$> (to_result wp ws <$> l) = l.*1.
Proof. rewrite <- list_fmap_compose. by apply list_fmap_ext. Qed.

Lemma slice_to_sublist {A} (l : list A) stop : Py.slice_to l stop `sublist_of` l.
Proof. destruct (slice_to_prefix l stop) as [n ->]. apply sublist_take. Qed.

Lemma filter_fmap_filter {A B} (p1 p2 : A -> bool) (q : B -> bool) (g : A -> B) l :
  (forall x, p2 x = p1 x && q (g x)) ->
  List.filter q (g <$> List.filter p1 l) = g <$> List.filter p2 l.
Proof.
  intros H. induction l as [|x l IH]; [done|]. cbn. rewrite (H x).
  destruct (p1 x); cbn; [|done]. destruct (q (g x)); cbn; by rewrite IH.
Qed.

Section more.

Variable client_search : string -> string * list float -> Z -> list ScoredPoint.

#[local] Abbreviation purpose_results := (purpose_results client_search).
#[local] Abbreviation stack_results := (stack_results client_search).
#[local] Abbreviation merged := (merged client_search).
#[local] Abbreviation search_similar := (search_similar client_search).

(** X1: a candidate both queries return (each query returning an id once)
    is merged into one entry that has the purpose score of its purpose hit,
    the stack score of its stack hit, and the payload of the purpose hit. *)
Theorem both_spaces_candidate_combines_hits pv sv limit r_p r_s :
  r_p ∈ purpose_results pv limit -> r_s ∈ stack_results sv limit ->
  r_id r_s = r_id r_p ->
  NoDup (r_id <$> purpose_results pv limit) ->
  NoDup (r_id <$> stack_results sv limit) ->
  (r_id r_p,
   {| purpose := r_score r_p; stack := r_score r_s; payload := r_payload r_p |})
  ∈ Py.items (merged pv sv limit).
Proof.
  intros Hp Hs Hid Hnp Hns. apply elem_of_merged_items.
  unfold VectorStore.merged, merge.
  destruct (purpose_loop_hit Py.empty _ _ Hp) as (e & He & Hz & Hk).
  destruct (Hk Hnp) as [Hpe Hpl]. rewrite <- Hid in He |- *.
  rewrite (stack_loop_update _ _ r_s e He Hs Hns). by rewrite Hpe, Hpl.
Qed.

(** X2: when each query returns an id once, the candidate map iterates in
    this order: the purpose hits as the store returned them, then the
    stack hits the purpose query did not return, as the store returned
    them. *)
Theorem merged_candidates_in_arrival_order pv sv limit :
  NoDup (r_id <$> purpose_results pv limit) ->
  NoDup (r_id <$> stack_results sv limit) ->
  (Py.items (merged pv sv limit)).*1
  = (r_id <$> purpose_results pv limit)
    ++ filter (fun k => k ∉ r_id <$> purpose_results pv limit)
         (r_id <$> stack_results sv limit).
Proof.
  intros Hnp Hns. rewrite items_keys by apply wf_merge.
  unfold VectorStore.merged, merge.
  assert (Py.d_keys (foldl merge_purpose Py.empty (purpose_results pv limit))
          = r_id <$> purpose_results pv limit) as Hk.
  { rewrite keys_purpose_loop; [done|apply wf_empty|done|].
    intros r _. cbn. apply not_elem_of_nil. }
  rewrite keys_stack_loop; [|apply wf_foldl; [apply wf_merge_purpose|apply wf_empty]|done].
  by rewrite Hk.
Qed.

Lemma merged_key_is_hit pv sv limit k e :
  Py.get k (merged pv sv limit) = Some e ->
  k ∈ r_id <$> purpose_results pv limit \/ k ∈ r_id <$> stack_results sv limit.
Proof.
  intros He. unfold VectorStore.merged, merge in He.
  destruct (decide (k ∈ r_id <$> stack_results sv limit)) as [|Hs]; [by right|].
  destruct (decide (k ∈ r_id <$> purpose_results pv limit)) as [|Hp]; [by left|].
  rewrite stack_loop_other, purpose_loop_other in He by done.
  unfold Py.get in He. cbn in He. by rewrite lookup_empty in He.
Qed.

(** X3: whatever the store answers, no identifier occurs twice in the
    results, and every result is a candidate one of the two queries
    returned. *)
Theorem results_are_distinct_hits pv sv w_purpose w_stack limit min_score :
  let out := search_similar pv sv w_purpose w_stack limit min_score in
  NoDup (sr_id <$> out)
  /\ forall r, r ∈ out ->
       sr_id r ∈ r_id <$> purpose_results pv limit
       \/ sr_id r ∈ r_id <$> stack_results sv limit.
Proof.
  intros out. split.
  - subst out. unfold VectorStore.search_similar.
    eapply sublist_NoDup; [|apply fmap_sublist, slice_to_sublist].
    rewrite sort_reverse_perm, rank_filter, fmap_id_to_result.
    eapply sublist_NoDup; [|apply fmap_sublist, filter_bool_sublist].
    rewrite items_keys by apply wf_merge. apply (wf_merge _ _).
  - intros r Hr. subst out. unfold VectorStore.search_similar in Hr.
    apply elem_of_slice_to in Hr. rewrite sort_reverse_perm in Hr.
    apply elem_of_rank in Hr as ([k e] & Hit & _ & ->). cbn.
    apply elem_of_merged_items in Hit. by eapply merged_key_is_hit.
Qed.

Lemma ge_trans x y z : Py.ge x y = true -> Py.ge y z = true -> Py.ge x z = true.
Proof.
  rewrite !ge_ord. destruct (ord x), (ord y), (ord z); try done. lia.
Qed.

(** X4: raising the threshold only removes results.  For thresholds
    [low <= high] and a non-negative limit, the search at [high] returns
    the results of the search at [low] whose score is at least [high], in
    the same order. *)
Theorem raising_min_score_only_removes pv sv w_purpose w_stack limit low high :
  Py.ge high low = true -> (0 <= limit)%Z ->
  search_similar pv sv w_purpose w_stack limit high
  = List.filter (fun r => Py.ge (sr_score r) high)
      (search_similar pv sv w_purpose w_stack limit low).
Proof.
  intros Hge Hl. unfold VectorStore.search_similar, Py.slice_to.
  destruct (Z.leb_spec 0 limit) as [_|]; [|lia].
  set (q := fun r : SearchResult => Py.ge (sr_score r) high).
  assert (rank w_purpose w_stack high (merged pv sv limit)
          = List.filter q (rank w_purpose w_stack low (merged pv sv limit))) as ->.
  { rewrite !rank_filter. symmetry.
    apply (filter_fmap_filter (passes w_purpose w_stack low)
             (passes w_purpose w_stack high) q (to_result w_purpose w_stack)).
    intros it. unfold q, passes, to_result. cbn [sr_score].
    destruct (Py.ge (final_score w_purpose w_stack it.2) high) eqn:Hh.
    - by rewrite (ge_trans _ _ _ Hh Hge).
    - by destruct (Py.ge (final_score w_purpose w_stack it.2) low). }
  rewrite sort_reverse_filter by apply rank_not_nan.
  apply (take_filter_sorted sr_score); [|apply sort_reverse_sorted, rank_not_nan].
  intros x y Hd Hy. unfold q in *. unfold Py.desc in Hd.
  apply (ge_trans _ (sr_score y)); [|done]. exact Hd.
Qed.

(** X5: no result has a NaN score, whatever scores the store reports and
    whatever the weights are; and a NaN threshold lets nothing through. *)
Theorem results_never_hold_nan pv sv w_purpose w_stack limit min_score :
  (forall r, r ∈ search_similar pv sv w_purpose w_stack limit min_score ->
     is_nan (sr_score r) = false)
  /\ (is_nan min_score = true ->
      search_similar pv sv w_purpose w_stack limit min_score = []).
Proof.
  split.
  - intros r Hr. unfold VectorStore.search_similar in Hr.
    apply elem_of_slice_to in Hr. rewrite sort_reverse_perm in Hr.
    pose proof (rank_not_nan w_purpose w_stack min_score (merged pv sv limit)) as H.
    rewrite Forall_forall in H. by apply H.
  - intros Hnan. unfold VectorStore.search_similar.
    assert (rank w_purpose w_stack min_score (merged pv sv limit) = []) as ->.
    { assert (forall it, passes w_purpose w_stack min_score it = false) as Hno.
      { intros it. unfold passes. rewrite ge_ord.
        destruct (ord min_score) as [m|] eqn:Hm.
        - assert (is_nan min_score = false)
            by (apply is_nan_ord; rewrite Hm; eauto).
          congruence.
        - by destruct (ord (final_score w_purpose w_stack it.2)). }
      rewrite rank_filter. generalize (Py.items (merged pv sv limit)). intros l.
      induction l as [|it l IH]; [done|]. cbn [List.filter]. by rewrite Hno. }
    change (Py.sort_reverse sr_score []) with (@nil SearchResult).
    unfold Py.slice_to. destruct (0 <=? limit)%Z; apply take_nil.
Qed.

End more.

(** X1 on the store [two_spaces]: candidate 2 is returned by both queries. *)
Lemma both_spaces_candidate_combines_hits_witness :
  (2%Z, {| purpose := 0.8; stack := 0.5; payload := Fixtures.repo "b/two" 20 |})
  ∈ Py.items (merged Fixtures.two_spaces [] [] 20).
Proof.
  apply (both_spaces_candidate_combines_hits Fixtures.two_spaces [] [] 20
           (Fixtures.hit 2 0.8 (Fixtures.repo "b/two" 20))
           (Fixtures.hit 2 0.5 (Fixtures.repo "b/two" 20))).
  - vm_compute. right. left.
  - vm_compute. left.
  - reflexivity.
  - refine (bool_decide_unpack _ _). vm_compute. exact I.
  - refine (bool_decide_unpack _ _). vm_compute. exact I.
Defined.

(** X2 on the store [two_spaces]. *)
Lemma merged_candidates_in_arrival_order_witness :
  (Py.items (merged Fixtures.two_spaces [] [] 20)).*1 = [1; 2; 3]%Z.
Proof.
  rewrite (merged_candidates_in_arrival_order Fixtures.two_spaces [] [] 20).
  - vm_compute. reflexivity.
  - refine (bool_decide_unpack _ _). vm_compute. exact I.
  - refine (bool_decide_unpack _ _). vm_compute. exact I.
Defined.

(** X4 on the store [two_spaces]: from threshold 0.3 to 0.7. *)
Lemma raising_min_score_only_removes_witness :
  sr_id <$> search_similar Fixtures.two_spaces [] [] 0.7 0.3 20 0.7 = [2]%Z
  /\ sr_id <$> search_similar Fixtures.two_spaces [] [] 0.7 0.3 20 0.3 = [2; 1]%Z.
Proof.
  split; [|vm_compute; reflexivity].
  rewrite (raising_min_score_only_removes Fixtures.two_spaces [] []
             0.7%float 0.3%float 20%Z 0.3%float 0.7%float).
  - vm_compute. reflexivity.
  - vm_compute. reflexivity.
  - lia.
Defined.

(** X5 with a NaN threshold on the store [two_spaces]. *)
Lemma results_never_hold_nan_witness :
  search_similar Fixtures.two_spaces [] [] 0.7 0.3 20 nan = [].
Proof.
  apply (results_never_hold_nan Fixtures.two_spaces [] [] 0.7%float 0.3%float
           20%Z nan).
  reflexivity.
Defined.

End SearchMore.

(** ** More on the client: the other endpoints and network failures *)

Module ClientMore.
Import Js.

Section client.

Variable VITE_API_URL : option jsstring.
Variable JSON_stringify : value -> jsstring.
Variable Number_toString : float -> jsstring.
Variable null_property_error : Error.
Variable not_primitive_error : Error.
Variable fetch : Client.Request -> outcome Client.Response.

#[local] Abbreviation API_BASE := (Client.API_BASE VITE_API_URL).
#[local] Abbreviation search_request :=
  (Client.search_request VITE_API_URL JSON_stringify).
#[local] Abbreviation index_request :=
  (Client.index_request VITE_API_URL JSON_stringify).
#[local] Abbreviation health_request := (Client.health_request VITE_API_URL).
#[local] Abbreviation searchRepos :=
  (Client.searchRepos VITE_API_URL JSON_stringify Number_toString
     null_property_error not_primitive_error fetch).
#[local] Abbreviation indexRepo :=
  (Client.indexRepo VITE_API_URL JSON_stringify Number_toString
     null_property_error not_primitive_error fetch).
#[local] Abbreviation getHealth := (Client.getHealth VITE_API_URL fetch).
#[local] Abbreviation handleSearch :=
  (App.handleSearch VITE_API_URL JSON_stringify Number_toString
     null_property_error not_primitive_error fetch).
#[local] Abbreviation onMount := (App.onMount VITE_API_URL fetch).

(** X6: a rejection of [fetch] itself (network failure, abort after the
    timeout) is not caught by any of the three calls: each issues its one
    request and rejects with the very value [fetch] rejected with. *)
Theorem network_failure_is_passed_on (e : thrown) :
  (forall params, fetch (search_request params) = Rejected e ->
     searchRepos params = ([search_request params], Rejected e))
  /\ (forall repo_url, fetch (index_request repo_url) = Rejected e ->
        indexRepo repo_url = ([index_request repo_url], Rejected e))
  /\ (fetch health_request = Rejected e ->
        getHealth = ([health_request], Rejected e)).
Proof.
  split_and!.
  - intros params H. unfold Client.searchRepos, Client.fetchWithTimeout. by rewrite H.
  - intros u H. unfold Client.indexRepo, Client.fetchWithTimeout. by rewrite H.
  - intros H. unfold Client.getHealth, Client.fetchWithTimeout. by rewrite H.
Qed.

(** X7: [getHealth] sends one request to [/api/health] under the API base
    with no method, header or body set; on a response that is not ok it
    throws the Error [Health check failed] without reading the body; on an
    ok response it settles as [res.json()] does. *)
Theorem getHealth_behaviour res :
  fetch health_request = Resolved res ->
  getHealth.1
  = [ {| Client.req_url := API_BASE ++ lit "/api/health";
         Client.req_method := None; Client.req_headers := [];
         Client.req_body := None |} ]
  /\ (Client.ok res = false ->
      getHealth.2
      = Rejected (ThrownError {| name := lit "Error";
                                 message := lit "Health check failed" |}))
  /\ (Client.ok res = true -> getHealth.2 = Client.json res).
Proof.
  intros H. unfold Client.getHealth, Client.fetchWithTimeout. rewrite H. cbn.
  split_and!; [done|..]; by intros ->.
Qed.

(** X8: [indexRepo] sends one POST to [/api/index] whose body is the
    serialisation of an object with the single field [repo_url]; on an ok
    response it settles as [res.json()] does; on a response that is not ok
    it never resolves.  It then throws the Error [Indexing failed] when the
    body is not JSON or when reading the body's [detail] gives a falsy
    value ([undefined] for an absent one); an Error with the [detail] as
    message when that is a string that is not empty, and with its string
    conversion when it is another truthy value; the engine's TypeError when
    that conversion fails; and, when the body is the JSON [null], the
    TypeError of reading [detail] from [null]. *)
Theorem indexRepo_behaviour repo_url res :
  fetch (index_request repo_url) = Resolved res ->
  let failed msg := Rejected (ThrownError {| name := lit "Error"; message := msg |}) in
  (indexRepo repo_url).1
  = [ {| Client.req_url := API_BASE ++ lit "/api/index";
         Client.req_method := Some (lit "POST");
         Client.req_headers := [(lit "Content-Type", lit "application/json")];
         Client.req_body :=
           Some (JSON_stringify (Obj [(lit "repo_url", Str repo_url)])) |} ]
  /\ (Client.ok res = true -> (indexRepo repo_url).2 = Client.json res)
  /\ (Client.ok res = false ->
      (forall v, (indexRepo repo_url).2 <> Resolved v)
      /\ (forall x, Client.json res = Rejected x ->
            (indexRepo repo_url).2 = failed (lit "Indexing failed"))
      /\ (Client.json res = Resolved Null ->
            (indexRepo repo_url).2 = Rejected (ThrownError null_property_error))
      /\ (forall body d, Client.json res = Resolved body ->
            get_prop body (lit "detail") = Some d -> truthy d = false ->
            (indexRepo repo_url).2 = failed (lit "Indexing failed"))
      /\ (forall body s, Client.json res = Resolved body ->
            get_prop body (lit "detail") = Some (Str s) -> s <> [] ->
            (indexRepo repo_url).2 = failed s)
      /\ (forall body d, Client.json res = Resolved body ->
            get_prop body (lit "detail") = Some d -> truthy d = true ->
            (indexRepo repo_url).2
            = match ToString Number_toString d with
              | Some msg => failed msg
              | None => Rejected (ThrownError not_primitive_error)
              end)).
Proof.
  intros H failed. unfold Client.indexRepo, Client.fetchWithTimeout. rewrite H.
  cbn [fst snd]. split_and!; [done|by intros ->|].
  intros ->. cbn [negb]. unfold Client.throw_new_Error. split_and!.
  - intros v. destruct (Client.json res) as [body|x]; [|done].
    destruct (get_prop body (lit "detail")) as [d|]; [|done].
    by destruct (ToString Number_toString _).
  - by intros x ->.
  - by intros ->.
  - intros body d -> Hd Ht. by rewrite Hd, Ht.
  - intros body s -> Hd Hs. rewrite Hd. cbn.
    by rewrite bool_decide_eq_false_2.
  - intros body d -> Hd Ht. rewrite Hd, Ht.
    by destruct (ToString Number_toString d).
Qed.

(** X9: every URL the client builds starts with the API base, and the
    base is never empty: an unset or empty [VITE_API_URL] gives
    [http://localhost:8000], any other value is used as it is. *)
Theorem client_urls_share_a_nonempty_base params repo_url :
  API_BASE <> []
  /\ API_BASE = match VITE_API_URL with
                | Some (c :: u) => c :: u
                | _ => lit "http://localhost:8000"
                end
  /\ Client.req_url (search_request params) = API_BASE ++ lit "/api/search"
  /\ Client.req_url (index_request repo_url) = API_BASE ++ lit "/api/index"
  /\ Client.req_url health_request = API_BASE ++ lit "/api/health"
  /\ Client.getGitHubAuthUrl VITE_API_URL = API_BASE ++ lit "/api/auth/github".
Proof.
  split_and!; try done; unfold Client.API_BASE;
    destruct VITE_API_URL as [[|c u]|]; done.
Qed.

(** *** The page *)

(** [handleSearch] in terms of the settled promise of [searchRepos]. *)
Lemma handleSearch_settled url st :
  handleSearch url st
  = ([search_request (App.search_params url st)],
     App.setLoading false
       match (searchRepos (App.search_params url st)).2 with
       | Resolved result =>
           match get_prop result (lit "indexed_count") with
           | Some c =>
               App.setIndexedCount c
                 (App.setSearchResult result (App.search_started st))
           | None =>
               App.setError (Some (message null_property_error))
                 (App.setSearchResult result (App.search_started st))
           end
       | Rejected e =>
           App.setError (Some (App.catch_message e)) (App.search_started st)
       end).
Proof.
  unfold App.handleSearch.
  change (App.search_params url (App.search_started st))
    with (App.search_params url st).
  destruct (searchRepos (App.search_params url st)) as [sent settled] eqn:E.
  assert (sent = [search_request (App.search_params url st)]) as ->.
  { unfold Client.searchRepos, Client.fetchWithTimeout in E. by injection E as <- _. }
  done.
Qed.

(** What a page that [App] returns tells about the state it was made of. *)
Lemma render_inv st view :
  App.render st = Some view ->
  App.loading_state view = App.loading st
  /\ (App.error st = None -> App.alert_banner view = None)
  /\ (truthy (App.searchResult st) = false -> App.results_list view = None).
Proof.
  unfold App.render. intros H.
  destruct (truthy (App.searchResult st)) eqn:Ht; cbn [andb] in H.
  - destruct (negb (App.loading st));
      [destruct (App.results_props (App.searchResult st)); [|done]|];
      cbn in H; destruct (toLocaleString_returns (App.indexedCount st));
      try done; injection H as <-; cbn; split_and!; try done;
      by intros ->.
  - cbn in H. destruct (toLocaleString_returns (App.indexedCount st)); [|done].
    injection H as <-. cbn. split_and!; try done. by intros ->.
Qed.

(** X10: for as long as the request is pending the page is in the state
    [handleSearch] sets before it awaits: loading, with error and result
    cleared, so [App] returns the loading placeholder and neither a banner
    nor a results list.  Once [searchRepos] has settled, whichever way,
    [handleSearch] has issued exactly one request and left [loading] false
    and the purpose weight untouched; it never leaves an error together
    with a truthy search result, so whenever [App] returns a page for that
    state, the page has no loading placeholder and never an alert banner
    together with a results list. *)
Theorem handleSearch_leaves_consistent_page url st :
  let pending := App.search_started st in
  let st' := (handleSearch url st).2 in
  (App.loading pending = true /\ App.error pending = None
   /\ App.searchResult pending = Null
   /\ App.render pending
      = if toLocaleString_returns (App.indexedCount st)
        then Some {| App.loading_state := true; App.alert_banner := None;
                     App.results_list := None |}
        else None)
  /\ (handleSearch url st).1 = [search_request (App.search_params url st)]
  /\ App.loading st' = false
  /\ App.purposeWeight st' = App.purposeWeight st
  /\ (App.error st' = None \/ truthy (App.searchResult st') = false)
  /\ (forall view, App.render st' = Some view ->
        App.loading_state view = false
        /\ (App.alert_banner view = None \/ App.results_list view = None)).
Proof.
  intros pending st'.
  assert (App.loading st' = false
          /\ App.purposeWeight st' = App.purposeWeight st
          /\ (App.error st' = None \/ truthy (App.searchResult st') = false))
    as (Hl & Hw & He).
  { subst st'. rewrite handleSearch_settled. cbn [snd].
    destruct (searchRepos (App.search_params url st)).2 as [result|e].
    - destruct (get_prop result (lit "indexed_count")) as [c|] eqn:Hc.
      + split_and!; [done..|]. by left.
      + split_and!; [done..|]. right.
        destruct result; cbn in Hc |- *; try discriminate; done.
    - split_and!; [done..|]. by right. }
  split_and!; try done.
  intros view (Hv1 & Hv2 & Hv3)%render_inv. split; [congruence|].
  destruct He as [He|He]; [left|right]; auto.
Qed.

(** X11: on an ok response whose body is a search response, [handleSearch]
    stores the body as the search result and its [indexed_count] as the
    indexed count, leaves the error empty, and [App] returns the results
    list with the body's [results], [indexed_count], [search_time_ms] and
    [query_repo.full_name] as props, and no banner. *)
Theorem successful_search_shows_results url st res (r : Client.SearchResponse) :
  fetch (search_request (App.search_params url st)) = Resolved res ->
  Client.ok res = true ->
  Client.json res = Resolved (Client.SearchResponse_value r) ->
  let st' := (handleSearch url st).2 in
  App.searchResult st' = Client.SearchResponse_value r
  /\ App.indexedCount st' = Num (Client.indexed_count r)
  /\ App.error st' = None
  /\ App.render st'
     = Some {| App.loading_state := false;
               App.alert_banner := None;
               App.results_list :=
                 Some {| ResultsList.results :=
                           Arr (Client.SearchResultItem_value <$> Client.results r);
                         ResultsList.indexedCount := Num (Client.indexed_count r);
                         ResultsList.searchTimeMs := Num (Client.search_time_ms r);
                         ResultsList.queryRepo :=
                           Str (Client.qr_full_name (Client.query_repo r)) |} |}.
Proof.
  intros Hf Hok Hj st'. subst st'. rewrite handleSearch_settled. cbn [snd].
  unfold Client.searchRepos, Client.fetchWithTimeout. rewrite Hf, Hok, Hj.
  by split_and!.
Qed.

(** X12: when [fetch] itself rejects, the error state is the message of
    the Error it rejected with, or [Search failed] when what was thrown is
    not an Error; [App] returns no results list, and the banner with that
    message when it is not empty (nothing at all when the footer's count
    cannot be rendered). *)
Theorem network_failure_shows_banner url st (e : thrown) :
  fetch (search_request (App.search_params url st)) = Rejected e ->
  let st' := (handleSearch url st).2 in
  let msg := match e with
             | ThrownError err => message err
             | ThrownOther _ => lit "Search failed"
             end in
  App.error st' = Some msg
  /\ App.searchResult st' = Null
  /\ App.render st'
     = if toLocaleString_returns (App.indexedCount st)
       then Some {| App.loading_state := false;
                    App.alert_banner := if bool_decide (msg = []) then None else Some msg;
                    App.results_list := None |}
       else None.
Proof.
  intros Hf st' msg. subst st'.
  rewrite (ClientProps.handleSearch_rejected _ _ _ _ _ _ _ _ e).
  - split_and!; [done..|]. apply ClientProps.render_failed.
  - unfold Client.searchRepos, Client.fetchWithTimeout. by rewrite Hf.
Qed.

(** X13: an ok response whose body is the JSON [null] does not end as a
    result: reading [indexed_count] of [null] raises inside the [try], the
    error state becomes that TypeError's message, the indexed count stays,
    and [App] returns no results list. *)
Theorem null_body_is_reported_as_error url st res :
  fetch (search_request (App.search_params url st)) = Resolved res ->
  Client.ok res = true ->
  Client.json res = Resolved Null ->
  let st' := (handleSearch url st).2 in
  let msg := message null_property_error in
  App.error st' = Some msg
  /\ App.indexedCount st' = App.indexedCount st
  /\ App.render st'
     = if toLocaleString_returns (App.indexedCount st)
       then Some {| App.loading_state := false;
                    App.alert_banner := if bool_decide (msg = []) then None else Some msg;
                    App.results_list := None |}
       else None.
Proof.
  intros Hf Hok Hj st' msg. subst st'. rewrite handleSearch_settled. cbn [snd].
  unfold Client.searchRepos, Client.fetchWithTimeout. rewrite Hf, Hok, Hj.
  cbn [negb fst snd get_prop]. split_and!; [done..|].
  apply (ClientProps.render_failed st msg).
Qed.

(** X14: on a search response that is not ok, with a footer count that
    renders, the page shows the banner with a message that is not empty in
    each of these cases: the body is not JSON, or is an object without
    [detail] or with the empty string as [detail], where the message is
    [Search failed]; the body is an object whose [detail] is a string that
    is not empty, where the message is that string.  In each of them the
    error state is the message and no results list is shown.  (A body that
    is the JSON [null] is none of these cases: reading its [detail] throws,
    and the error state is the TypeError's message.) *)
Theorem string_detail_always_shows_banner url st res :
  fetch (search_request (App.search_params url st)) = Resolved res ->
  Client.ok res = false ->
  toLocaleString_returns (App.indexedCount st) = true ->
  let st' := (handleSearch url st).2 in
  let shows msg :=
    msg <> []
    /\ App.error st' = Some msg
    /\ App.render st'
       = Some {| App.loading_state := false; App.alert_banner := Some msg;
                 App.results_list := None |} in
  (forall x, Client.json res = Rejected x -> shows (lit "Search failed"))
  /\ (forall fields, Client.json res = Resolved (Obj fields) ->
        lookup_field (lit "detail") fields = Undefined -> shows (lit "Search failed"))
  /\ (forall fields, Client.json res = Resolved (Obj fields) ->
        lookup_field (lit "detail") fields = Str [] -> shows (lit "Search failed"))
  /\ (forall fields s, Client.json res = Resolved (Obj fields) ->
        lookup_field (lit "detail") fields = Str s -> s <> [] -> shows s)
  /\ (Client.json res = Resolved Null ->
        App.error st' = Some (message null_property_error)).
Proof.
  intros Hf Hok Hfoot st' shows.
  pose proof (ClientProps.searchRepos_not_ok VITE_API_URL JSON_stringify
                Number_toString null_property_error not_primitive_error fetch
                _ _ Hf Hok) as Hs.
  assert (forall msg, msg <> [] ->
            (searchRepos (App.search_params url st)).2
            = Rejected (ThrownError (Client.new_Error msg)) ->
            shows msg) as Hshows.
  { intros msg Hne He. subst shows st'. cbn beta.
    rewrite (ClientProps.handleSearch_rejected _ _ _ _ _ _ _ _ _ He).
    rewrite ClientProps.render_failed, Hfoot. cbn [App.catch_message message].
    split_and!; [done..|]. by rewrite bool_decide_eq_false_2. }
  split_and!.
  - intros x Hx. rewrite Hx in Hs. by apply Hshows.
  - intros fields Hb Hd. rewrite Hb in Hs. cbn [get_prop] in Hs.
    rewrite Hd in Hs. by apply Hshows.
  - intros fields Hb Hd. rewrite Hb in Hs. cbn [get_prop] in Hs.
    rewrite Hd in Hs. by apply Hshows.
  - intros fields s Hb Hd Hne. rewrite Hb in Hs. cbn [get_prop] in Hs.
    rewrite Hd in Hs. cbn [truthy ToString] in Hs.
    rewrite bool_decide_eq_false_2 in Hs by done. by apply Hshows.
  - intros Hb. rewrite Hb in Hs. cbn [get_prop] in Hs. subst st'.
    by rewrite (ClientProps.handleSearch_rejected _ _ _ _ _ _ _ _ _ Hs).
Qed.

(** X15: the health check made on mount issues one request; when it
    answers with a health report the indexed count becomes the report's
    [indexed_repos] and nothing else changes; when the request fails, the
    response is not ok, or the body is [null], the state stays as it was
    and no error is recorded. *)
Theorem mount_health_check_is_silent st :
  (onMount st).1 = [health_request]
  /\ (forall res h, fetch health_request = Resolved res -> Client.ok res = true ->
        Client.json res = Resolved (Client.HealthResponse_value h) ->
        (onMount st).2 = App.setIndexedCount (Num (Client.indexed_repos h)) st)
  /\ (forall e, fetch health_request = Rejected e -> (onMount st).2 = st)
  /\ (forall res, fetch health_request = Resolved res -> Client.ok res = false ->
        (onMount st).2 = st)
  /\ (forall res, fetch health_request = Resolved res ->
        Client.json res = Resolved Null -> (onMount st).2 = st).
Proof.
  unfold App.onMount, Client.getHealth, Client.fetchWithTimeout.
  split_and!; [done|..].
  - intros res h -> -> ->. done.
  - by intros e ->.
  - by intros res -> ->.
  - intros res -> Hj. cbn. destruct (Client.ok res); cbn; [by rewrite Hj|done].
Qed.

End client.

Import ClientFixtures.

(** X6 on a network that is down. *)
Lemma network_failure_is_passed_on_witness :
  (Client.getHealth None offline).2 = Rejected failed_to_fetch
  /\ (Client.indexRepo None no_text no_text type_error primitive_error offline
        (lit "a/b")).2
     = Rejected failed_to_fetch.
Proof.
  destruct (network_failure_is_passed_on None no_text no_text type_error
              primitive_error offline failed_to_fetch) as (_ & Hi & Hh).
  split.
  - rewrite Hh; reflexivity.
  - rewrite (Hi (lit "a/b")); reflexivity.
Defined.

(** X7 on a server that answers 500 with a page that is not JSON. *)
Lemma getHealth_behaviour_witness :
  (Client.getHealth None (answers (not_ok not_json))).2
  = Rejected (ThrownError {| name := lit "Error";
                             message := lit "Health check failed" |}).
Proof.
  destruct (getHealth_behaviour None (answers (not_ok not_json))
              (not_ok not_json) eq_refl)
    as (_ & H & _).
  apply H. reflexivity.
Defined.

(** X8 on the response of the client's own test, detail [Rate limited],
    and on an error response whose body is [null]. *)
Lemma indexRepo_behaviour_witness :
  let res := not_ok (Resolved (Obj [(lit "detail", Str (lit "Rate limited"))])) in
  (Client.indexRepo None no_text no_text type_error primitive_error (answers res)
     (lit "https://github.com/test/repo")).2
  = Rejected (ThrownError {| name := lit "Error"; message := lit "Rate limited" |})
  /\ (Client.indexRepo None no_text no_text type_error primitive_error
        (answers (not_ok (Resolved Null))) (lit "https://github.com/test/repo")).2
     = Rejected (ThrownError type_error).
Proof.
  intros res. split.
  - destruct (indexRepo_behaviour None no_text no_text type_error primitive_error
                (answers res) (lit "https://github.com/test/repo") res eq_refl)
      as (_ & _ & H).
    destruct (H eq_refl) as (_ & _ & _ & _ & Hs & _).
    apply (Hs (Obj [(lit "detail", Str (lit "Rate limited"))]));
      [reflexivity|reflexivity|].
    vm_compute. discriminate.
  - destruct (indexRepo_behaviour None no_text no_text type_error primitive_error
                (answers (not_ok (Resolved Null)))
                (lit "https://github.com/test/repo") (not_ok (Resolved Null)) eq_refl)
      as (_ & _ & H).
    destruct (H eq_refl) as (_ & _ & Hn & _).
    apply Hn. reflexivity.
Defined.

(** X11 on the response of the page's own test. *)
Lemma successful_search_shows_results_witness :
  let st' :=
    (App.handleSearch None no_text no_text type_error primitive_error
       (answers (ok_with (Client.SearchResponse_value one_result)))
       (lit "test/repo") App.initial).2 in
  App.indexedCount st' = Num 500
  /\ (ResultsList.queryRepo <$> (App.render st' ≫= App.results_list))
     = Some (Str (lit "test/repo")).
Proof.
  intros st'.
  destruct (successful_search_shows_results None no_text no_text type_error
              primitive_error
              (answers (ok_with (Client.SearchResponse_value one_result)))
              (lit "test/repo") App.initial
              (ok_with (Client.SearchResponse_value one_result)) one_result
              eq_refl eq_refl eq_refl) as (_ & Hc & _ & Hr).
  split; [exact Hc|]. subst st'. rewrite Hr. reflexivity.
Defined.

(** X12 on a network that is down. *)
Lemma network_failure_shows_banner_witness :
  App.render
    (App.handleSearch None no_text no_text type_error primitive_error offline
       (lit "test/repo") App.initial).2
  = Some {| App.loading_state := false;
            App.alert_banner := Some (lit "Failed to fetch");
            App.results_list := None |}.
Proof.
  destruct (network_failure_shows_banner None no_text no_text type_error
              primitive_error offline (lit "test/repo") App.initial
              failed_to_fetch eq_refl)
    as (_ & _ & H).
  rewrite H. reflexivity.
Defined.

(** X13 on an ok response with the body [null]. *)
Lemma null_body_is_reported_as_error_witness :
  App.error
    (App.handleSearch None no_text no_text type_error primitive_error
       (answers (ok_with Null)) (lit "test/repo") App.initial).2
  = Some (lit "null has no properties").
Proof.
  destruct (null_body_is_reported_as_error None no_text no_text type_error
              primitive_error (answers (ok_with Null)) (lit "test/repo") App.initial
              (ok_with Null) eq_refl eq_refl eq_refl) as (H & _).
  exact H.
Defined.

(** X14 on an error response whose [detail] is the empty string, and on
    the response of the page's own test. *)
Lemma string_detail_always_shows_banner_witness :
  let after body :=
    (App.handleSearch None no_text no_text type_error primitive_error
       (answers (not_ok (Resolved body))) (lit "test/repo") App.initial).2 in
  (App.render (after (Obj [(lit "detail", Str [])])) ≫= App.alert_banner)
  = Some (lit "Search failed")
  /\ (App.render (after (Obj [(lit "detail", Str (lit "Repository not found"))]))
        ≫= App.alert_banner)
     = Some (lit "Repository not found").
Proof.
  intros after. split.
  - destruct (string_detail_always_shows_banner None no_text no_text type_error
                primitive_error
                (answers (not_ok (Resolved (Obj [(lit "detail", Str [])]))))
                (lit "test/repo") App.initial
                (not_ok (Resolved (Obj [(lit "detail", Str [])])))
                eq_refl eq_refl eq_refl) as (_ & _ & He & _).
    destruct (He [(lit "detail", Str [])] eq_refl eq_refl) as (_ & _ & Hr).
    subst after. cbn beta. rewrite Hr. reflexivity.
  - pose (body := Obj [(lit "detail", Str (lit "Repository not found"))]).
    destruct (string_detail_always_shows_banner None no_text no_text type_error
                primitive_error (answers (not_ok (Resolved body)))
                (lit "test/repo") App.initial (not_ok (Resolved body))
                eq_refl eq_refl eq_refl) as (_ & _ & _ & Hs & _).
    destruct (Hs [(lit "detail", Str (lit "Repository not found"))]
                (lit "Repository not found") eq_refl eq_refl) as (_ & _ & Hr).
    + vm_compute. discriminate.
    + subst after body. cbn beta. rewrite Hr. reflexivity.
Defined.

(** X15 on the health report of the page's own test, and offline. *)
Lemma mount_health_check_is_silent_witness :
  App.indexedCount
    (App.onMount None
       (answers (ok_with (Client.HealthResponse_value health_500))) App.initial).2
  = Num 500
  /\ (App.onMount None offline App.initial).2 = App.initial.
Proof.
  split.
  - destruct (mount_health_check_is_silent None
                (answers (ok_with (Client.HealthResponse_value health_500)))
                App.initial) as (_ & H & _).
    rewrite (H (ok_with (Client.HealthResponse_value health_500)) health_500);
      reflexivity.
  - destruct (mount_health_check_is_silent None offline App.initial)
      as (_ & _ & H & _).
    apply (H failed_to_fetch). reflexivity.
Defined.

End ClientMore.

(** ** More on the search form and the theme *)

Module FormAndThemeMore.
Import Js SearchInputProps.

Lemma trimStart_fixed c rest :
  is_whitespace c = false -> trimStart (c :: rest) = c :: rest.
Proof. intros Hc. cbn. by rewrite Hc. Qed.

Lemma trimEnd_fixed init c :
  is_whitespace c = false -> trimEnd (init ++ [c]) = init ++ [c].
Proof.
  intros Hc. unfold trimEnd. rewrite rev_app_distr. cbn [rev app].
  rewrite trimStart_fixed by done.
  change (c :: rev init) with ([c] ++ rev init).
  by rewrite rev_app_distr, rev_involutive.
Qed.

(** Trimming what was trimmed changes nothing. *)
Lemma trim_trim s : trim (trim s) = trim s.
Proof.
  destruct (trimStart_head s) as [Hs|(c & rest & Hs & Hc)].
  { unfold trim at 2 3. by rewrite Hs. }
  unfold trim at 2 3. rewrite Hs.
  destruct (trimEnd_head c rest Hc) as [rest' Hr]. rewrite Hr.
  unfold trim. rewrite trimStart_fixed by done. rewrite <- Hr.
  destruct (trimEnd_last (c :: rest)) as [Hn|(c' & init & Hl & Hc')].
  - rewrite Hn in Hr. discriminate.
  - rewrite Hl. by apply trimEnd_fixed.
Qed.

(** X16: the submit button is enabled exactly when nothing is loading and
    the input holds a code unit that is not white space; whenever it is
    enabled, submitting makes exactly one call, with an argument that is
    not empty and that a further submission would pass on unchanged. *)
Theorem enabled_button_always_submits (isLoading : bool) (url : jsstring) :
  (SearchInput.button_disabled isLoading url = false <->
     isLoading = false /\ existsb (fun c => negb (is_whitespace c)) url = true)
  /\ (SearchInput.button_disabled isLoading url = false ->
      exists arg, SearchInput.handleSubmit url = [arg] /\ arg <> []
        /\ SearchInput.handleSubmit arg = [arg]).
Proof.
  assert (SearchInput.button_disabled isLoading url = false <->
            isLoading = false /\ trim url <> []) as Hiff.
  { unfold SearchInput.button_disabled. cbn [truthy].
    rewrite orb_false_iff, negb_involutive, bool_decide_eq_false. done. }
  split.
  - rewrite Hiff, existsb_not_forallb, negb_true_iff.
    split; intros [Hl Hn]; (split; [done|]).
    + destruct (forallb is_whitespace url) eqn:E; [|done].
      by apply trim_nil in E.
    + intros Ht%trim_nil. congruence.
  - intros [_ Hne]%Hiff. exists (trim url).
    unfold SearchInput.handleSubmit. cbn. rewrite trim_trim.
    by rewrite bool_decide_eq_false_2.
Qed.

(** X16 on the input of the component's test. *)
Lemma enabled_button_always_submits_witness :
  SearchInput.button_disabled false (lit "  facebook/react  ") = false
  /\ exists arg, SearchInput.handleSubmit (lit "  facebook/react  ") = [arg]
       /\ arg <> [].
Proof.
  destruct (enabled_button_always_submits false (lit "  facebook/react  "))
    as [_ H].
  split; [reflexivity|].
  destruct (H eq_refl) as (arg & Ha & Hne & _). exists arg. by split.
Defined.

Import UseTheme.

(** X17: what a toggle stores is what the next page load starts from: in
    a browser whose storage is the one a toggle left, [getInitialTheme]
    returns the theme the toggle set, whatever the system preference, and
    mounting does not write to the storage. *)
Theorem stored_theme_survives_reload (st : State) (prefers_dark : bool) :
  getInitialTheme (localStorage (toggleTheme st)) prefers_dark
  = theme (toggleTheme st)
  /\ mount (localStorage (toggleTheme st)) prefers_dark = toggleTheme st.
Proof.
  assert (getInitialTheme (localStorage (toggleTheme st)) prefers_dark
          = theme (toggleTheme st)) as H.
  { unfold getInitialTheme, toggleTheme. cbn [theme localStorage].
    rewrite lookup_insert_eq.
    destruct (bool_decide (theme st = lit "light")); reflexivity. }
  split; [done|]. unfold mount. rewrite H. by destruct (toggleTheme st).
Qed.

(** X18: in every state the hook can reach, the toggle button announces
    the theme a click switches to, and shows that theme's icon. *)
Theorem toggle_button_names_next_theme (st : State) :
  reachable st ->
  ThemeToggle.aria_label (theme st)
  = lit "Switch to " ++ theme (toggleTheme st) ++ lit " theme"
  /\ ThemeToggle.icon (theme st) = theme (toggleTheme st) ++ lit "_mode".
Proof.
  intros Hst. apply UseThemeProps.reachable_valid in Hst.
  split; [done|].
  destruct Hst as [E|E]; unfold ThemeToggle.icon, toggleTheme; cbn;
    rewrite E; by vm_compute.
Qed.

(** X18 after mounting in a light browser. *)
Lemma toggle_button_names_next_theme_witness :
  ThemeToggle.aria_label (theme (mount ∅ false)) = lit "Switch to dark theme"
  /\ ThemeToggle.icon (theme (mount ∅ false)) = lit "dark_mode".
Proof.
  destruct (toggle_button_names_next_theme (mount ∅ false) (reach_mount _ _))
    as [Hl Hi].
  split; [rewrite Hl|rewrite Hi]; vm_compute; reflexivity.
Defined.

End FormAndThemeMore.
